(** * Cloud backup plugin (middlewared/plugins/backup.py)

    A shallow embedding of [BackupService] and [BackupS3Service]: the
    provider dispatcher, the rclone tree sync with its progress scanner, and
    the chunked multipart [put] / streamed [get].

    The plugin runs on Python 3.  Python values are modelled as follows:
    [int] as [Z], [bytes] read from file descriptors as [list byte], text
    and the lines of the rclone error stream as [string], with [pystring]
    telling a [str] from a [bytes] where the code hands one to a library
    that tells them apart; [dict]s with a fixed shape as records and the
    free-form credential attributes as a [gmap].  Raised exceptions are
    values of [exn]; every service method is a function from a world to an
    outcome and a new world, and every call that leaves the process is
    appended to the world's trace. *)

From stdpp Require Import gmap strings list pretty.
From Equations Require Import Equations.
From Stdlib Require Import ZArith Lia Strings.Byte Strings.Ascii.

Local Open Scope string_scope.
Local Open Scope list_scope.
Local Open Scope Z_scope.

Abbreviation bytes := (list byte).

(** ** Module constant *)

Definition CHUNK_SIZE : Z := 5 * 1024 * 1024.

(** ** Exceptions and outcomes *)

Inductive exn :=
| ValueError (msg : string)
| NotImplementedError (msg : string)
| TypeError (msg : string)
| KeyError (key : string)
| ClientError (code : string)
| OSError (msg : string).

Inductive result (A : Type) :=
| Ok (a : A)
| Raise (e : exn).
Arguments Ok {A} a.
Arguments Raise {A} e.

(** ** Data model: the records held by the datastore *)

Record CredentialRef := { ref_id : Z }.

Record TaskAttributes := {
  bucket : string;
  folder : option string;
  region : option string
}.

Record BackupTask := {
  task_id : Z;
  task_path : string;
  task_credential : CredentialRef;
  task_attributes : TaskAttributes
}.

Record CloudCredential := {
  cred_id : Z;
  cred_provider : string;
  cred_attributes : gmap string string
}.

(** The handle built by [boto3.client('s3', ...)]. *)
Record Client := {
  aws_access_key_id : option string;
  aws_secret_access_key : option string
}.

(** One entry of the [parts] list of [put]. *)
Record Part := { ETag : string; PartNumber : Z }.

(** ** Observable calls *)

Inductive Event :=
| EvQuery (table : string) (id : Z)
| EvCreateMultipartUpload (Bucket Key : string) (r : result string)
| EvUploadPart (Bucket Key : string) (PartNumber : Z) (UploadId : string)
               (ContentLength : Z) (Body : bytes) (r : result string)
| EvCompleteMultipartUpload (Bucket Key UploadId : string)
                            (Parts : list Part) (r : result unit)
| EvGetObject (Bucket Key : string) (r : result bytes)
| EvFdRead (n : Z) (data : bytes)
| EvFdWrite (data : bytes)
| EvTmpCreate (name : string) (mode : Z)
| EvChmod (name : string) (mode : Z)
| EvFileWrite (name : string) (data : string)
| EvFileFlush (name : string)
| EvPopen (args : list string) (r : result unit)
| EvSpawnCheckProgress
| EvCommunicate (stderr : string) (returncode : Z)
| EvTmpDelete (name : string).

(** ** The environment

    Everything the plugin calls but does not define.  Each operation is an
    arbitrary function of an environment state [St]; it may return or
    raise. *)

(** The boto3 S3 client, one field per method the plugin calls, arguments
    in the order of the keyword arguments at the call site. *)
Record S3 (St : Type) := {
  create_multipart_upload :
    Client -> string -> string -> St -> result string * St;
  upload_part :
    Client -> string -> string -> Z -> string -> Z -> bytes -> St ->
    result string * St;
  complete_multipart_upload :
    Client -> string -> string -> string -> list Part -> St ->
    result unit * St;
  get_object : Client -> string -> string -> St -> result bytes * St
}.
Arguments create_multipart_upload {St} _ _ _ _ _.
Arguments upload_part {St} _ _ _ _ _ _ _ _ _.
Arguments complete_multipart_upload {St} _ _ _ _ _ _ _.
Arguments get_object {St} _ _ _ _ _.

(** The host: [tempfile] picks the name of the temporary file, [Popen]
    starts rclone, [communicate] waits for it and returns what it captured
    of the error stream together with the exit code; [format_bytes] is what
    ['{}'.format] renders for that captured value. *)
Record Host (St : Type) := {
  mkstemp : St -> result string * St;
  popen : list string -> St -> result unit * St;
  communicate : St -> (string * Z) * St;
  format_bytes : string -> string
}.
Arguments mkstemp {St} _ _.
Arguments popen {St} _ _ _.
Arguments communicate {St} _ _.
Arguments format_bytes {St} _ _.

(** The two listing methods of the boto3 client.  [list_buckets] returns
    the ['Buckets'] list of the response, each entry with its ['Name'] and
    ['CreationDate']; [bucket_location] returns the
    ['LocationConstraint'] of the response, which may be [None]. *)
Record BucketEntry := { Name : string; CreationDate : Z }.

Record S3Listing (St : Type) := {
  list_buckets : Client -> St -> result (list BucketEntry) * St;
  bucket_location : Client -> string -> St -> result (option string) * St
}.
Arguments list_buckets {St} _ _ _.
Arguments bucket_location {St} _ _ _ _.

(** ** Worlds and the outcome monad *)

Record World (St : Type) := {
  trace : list Event;
  tasks_cloudsync : gmap Z BackupTask;
  system_cloudcredentials : gmap Z CloudCredential;
  ext : St
}.
Arguments trace {St} _.
Arguments tasks_cloudsync {St} _.
Arguments system_cloudcredentials {St} _.
Arguments ext {St} _.

Definition M (St A : Type) : Type := World St -> result A * World St.

Definition ret {St A} (a : A) : M St A := fun w => (Ok a, w).

Definition raise {St A} (e : exn) : M St A := fun w => (Raise e, w).

Definition bind {St A B} (m : M St A) (k : A -> M St B) : M St B :=
  fun w =>
    match m w with
    | (Ok a, w') => k a w'
    | (Raise e, w') => (Raise e, w')
    end.

Notation "'let!' x ':=' m 'in' k" := (bind m (fun x => k))
  (at level 10, x name, m at level 200, k at level 200, only parsing).
Notation "'do!' m 'in' k" := (bind m (fun _ => k))
  (at level 10, m at level 200, k at level 200, only parsing).

Definition log {St} (e : Event) (w : World St) : World St :=
  {| trace := trace w ++ [e];
     tasks_cloudsync := tasks_cloudsync w;
     system_cloudcredentials := system_cloudcredentials w;
     ext := ext w |}.

Definition set_ext {St} (s : St) (w : World St) : World St :=
  {| trace := trace w;
     tasks_cloudsync := tasks_cloudsync w;
     system_cloudcredentials := system_cloudcredentials w;
     ext := s |}.

Definition emit {St} (e : Event) : M St unit := fun w => (Ok tt, log e w).

(** An environment call: run the operation on the environment state and
    record the call together with its outcome. *)
Definition call {St A} (op : St -> result A * St) (ev : result A -> Event)
  : M St A :=
  fun w => let '(r, s) := op (ext w) in (r, log (ev r) (set_ext s w)).

(** ** Streams *)

(** [f.read(n)] on a buffered binary stream whose unread content is [f]:
    the next [n] bytes, fewer only at end of stream, everything when [n]
    is negative; the second component is what stays unread. *)
Fixpoint read (n : Z) (f : bytes) : bytes * bytes :=
  match f with
  | [] => ([], [])
  | b :: f' =>
      if n =? 0 then ([], f)
      else let '(c, r) := read (n - 1) f' in (b :: c, r)
  end.

Lemma read_app n f c r : read n f = (c, r) -> f = c ++ r.
Proof.
  revert n c r. induction f as [|b f IH]; intros n c r; simpl.
  - by intros [= <- <-].
  - destruct (n =? 0); [by intros [= <- <-]|].
    destruct (read (n - 1) f) as [c' r'] eqn:E. intros [= <- <-].
    simpl. f_equal. by eapply IH.
Qed.

(** Keeps the equation [x = y] available when matching on [y]. *)
Definition inspect {A : Type} (x : A) : { y : A | x = y } := exist _ x eq_refl.

(** ** Small pieces of the Python library *)

(** [x or ''] for a value that is a string or [None]. *)
Definition or_empty (x : option string) : string :=
  match x with
  | Some s => s
  | None => EmptyString
  end.

Definition startswith_sep (s : string) : bool :=
  match s with
  | String c _ => Ascii.eqb c "/"%char
  | EmptyString => false
  end.

Fixpoint endswith_sep (s : string) : bool :=
  match s with
  | EmptyString => false
  | String c EmptyString => Ascii.eqb c "/"%char
  | String _ s' => endswith_sep s'
  end.

(** [os.path.join(a, b)] of [posixpath]. *)
Definition os_path_join (a b : string) : string :=
  if startswith_sep b then b
  else if String.eqb a EmptyString || endswith_sep a then a +:+ b
  else a +:+ "/" +:+ b.

(** [d[key]] on a dict. *)
Definition getitem {St} (d : gmap string string) (key : string) : M St string :=
  match d !! key with
  | Some v => ret v
  | None => raise (KeyError key)
  end.

(** ASCII whitespace: what [\s] matches in a bytes pattern and what
    [strip()] removes. *)
Definition isspace (c : ascii) : bool :=
  let n := Ascii.nat_of_ascii c in
  (Nat.eqb n 32 || (Nat.leb 9 n && Nat.leb n 13))%bool.

Fixpoint lstrip (s : string) : string :=
  match s with
  | String c s' => if isspace c then lstrip s' else s
  | EmptyString => EmptyString
  end.

Fixpoint rstrip (s : string) : string :=
  match s with
  | String c s' =>
      match rstrip s' with
      | EmptyString => if isspace c then EmptyString else String c EmptyString
      | t => String c t
      end
  | EmptyString => EmptyString
  end.

Definition strip (s : string) : string := rstrip (lstrip s).

Definition is_digit (c : ascii) : bool :=
  let n := Ascii.nat_of_ascii c in (Nat.leb 48 n && Nat.leb n 57)%bool.

Fixpoint all_digits (s : string) : bool :=
  match s with
  | String c s' => is_digit c && all_digits s'
  | EmptyString => true
  end.

(** [s.isdigit()]: at least one character and all of them digits. *)
Definition isdigit (s : string) : bool :=
  match s with
  | EmptyString => false
  | _ => all_digits s
  end.

(** ** The pattern [Transferred:\s*?(.+)$] compiled with [re.S]

    A backtracking matcher for this one pattern, piece by piece; every
    function returns what group 1 captures. *)

(** [$] without [re.M]: at the end of the string, or before a newline that
    ends the string. *)
Definition at_dollar (s : string) : bool :=
  match s with
  | EmptyString => true
  | String c EmptyString => Ascii.eqb c "010"%char
  | _ => false
  end.

(** [(.+)$]: the dot matches every character ([re.S]); greedy, so longer
    captures are tried before shorter ones. *)
Fixpoint group_dollar (s : string) : option string :=
  match s with
  | EmptyString => None
  | String c s' =>
      match group_dollar s' with
      | Some g => Some (String c g)
      | None => if at_dollar s' then Some (String c EmptyString) else None
      end
  end.

(** [\s*?(.+)$]: lazy, so fewer spaces are tried before more. *)
Fixpoint spaces_group_dollar (s : string) : option string :=
  match group_dollar s with
  | Some g => Some g
  | None =>
      match s with
      | String c s' => if isspace c then spaces_group_dollar s' else None
      | EmptyString => None
      end
  end.

Fixpoint literal (p s : string) : option string :=
  match p, s with
  | EmptyString, _ => Some s
  | String a p', String b s' => if Ascii.eqb a b then literal p' s' else None
  | String _ _, EmptyString => None
  end.

Definition RE_TRANSF_match (s : string) : option string :=
  match literal "Transferred:" s with
  | Some s' => spaces_group_dollar s'
  | None => None
  end.

(** The search of the pattern in a text: the match at the leftmost
    position that has one; the result is group 1. *)
Fixpoint RE_TRANSF_scan (s : string) : option string :=
  match RE_TRANSF_match s with
  | Some g => Some g
  | None =>
      match s with
      | String _ s' => RE_TRANSF_scan s'
      | EmptyString => None
      end
  end.

(** A Python 3 string: a [str], or a [bytes] object with the given
    content. *)
Inductive pystring :=
| Str (s : string)
| Bytes (b : string).

(** [RE_TRANSF.search(read)].  [RE_TRANSF] is compiled from a [str]
    literal; such a pattern searches a [str] and refuses a [bytes]
    object. *)
Definition RE_TRANSF_search (read : pystring) : result (option string) :=
  match read with
  | Str s => Ok (RE_TRANSF_scan s)
  | Bytes _ =>
      Raise (TypeError "cannot use a string pattern on a bytes-like object")
  end.

(** ** Datastore *)

Section Datastore.
Context {St : Type}.

(** Modelled from the spec: [datastore.query(table, [('id', '=', id)],
    {'get': True})] of the persistence layer, which is not part of this
    plugin; the spec describes it as a key-value record store queried by
    id, read-only here.  A missing record is [None]. *)
Definition query_tasks_cloudsync (id : Z) : M St (option BackupTask) :=
  fun w => (Ok (tasks_cloudsync w !! id), log (EvQuery "tasks.cloudsync" id) w).

Definition query_system_cloudcredentials (id : Z)
  : M St (option CloudCredential) :=
  fun w => (Ok (system_cloudcredentials w !! id),
            log (EvQuery "system.cloudcredentials" id) w).
End Datastore.

(** ** class BackupS3Service *)

Module BackupS3Service.
Section WithEnv.
Context {St : Type} (s3 : S3 St) (host : Host St).

(** [boto3.client] only builds the handle; the lookup is the one call
    [get_client] makes.  Subscripting the [None] of a missing record
    raises. *)
Definition get_client (id : Z) : M St Client :=
  let! credential := query_system_cloudcredentials id in
  match credential with
  | None => raise (TypeError "'NoneType' object is not subscriptable")
  | Some credential =>
      ret {| aws_access_key_id := cred_attributes credential !! "access_key";
             aws_secret_access_key := cred_attributes credential !! "secret_key" |}
  end.

(** *** sync *)

Definition mode_0o600 : Z := 6 * 64.

Definition config (access_key secret_key region : string) : string :=
  "[remote]
type = s3
env_auth = false
access_key_id = " +:+ access_key +:+ "
secret_access_key = " +:+ secret_key +:+ "
region = " +:+ region +:+ "
".

(** [tempfile.NamedTemporaryFile()]: the file is created by [mkstemp]
    with mode 0600 under a name the environment picks. *)
Definition NamedTemporaryFile : M St string :=
  fun w =>
    match mkstemp host (ext w) with
    | (Ok name, s) => (Ok name, log (EvTmpCreate name mode_0o600) (set_ext s w))
    | (Raise e, s) => (Raise e, set_ext s w)
    end.

(** The list [args]; [name] is [f.name]. *)
Definition rclone_args (backup : BackupTask) (name : string) : list string :=
  [ "/usr/local/bin/rclone"; "--config"; name; "--stats"; "1s"; "sync";
    task_path backup; "remote:" +:+ bucket (task_attributes backup) ].

(** The body of the [with] block.  The job handle is only passed on to
    the scanner, which is spawned here and defined below. *)
Definition sync_with (backup : BackupTask) (credential : CloudCredential)
  (name : string) : M St bool :=
  do! emit (EvChmod name mode_0o600) in
  let! access_key := getitem (cred_attributes credential) "access_key" in
  let! secret_key := getitem (cred_attributes credential) "secret_key" in
  let region := or_empty (region (task_attributes backup)) in
  do! emit (EvFileWrite name (config access_key secret_key region)) in
  do! emit (EvFileFlush name) in
  let args := rclone_args backup name in
  do! call (popen host args) (EvPopen args) in
  do! emit EvSpawnCheckProgress in
  let! out := (fun w => let '(o, s) := communicate host (ext w) in
                   (Ok o, log (EvCommunicate (fst o) (snd o)) (set_ext s w))) in
  let stderr := fst out in
  let returncode := snd out in
  if negb (returncode =? 0)
  then raise (ValueError ("rclone failed: " +:+ format_bytes host stderr))
  else ret true.

(** Leaving the [with] block closes the temporary file, which deletes
    it, on the normal path and when the body raises. *)
Definition sync (backup : BackupTask) (credential : CloudCredential)
  : M St bool :=
  let! name := NamedTemporaryFile in
  fun w => let '(r, w') := sync_with backup credential name w in
           (r, log (EvTmpDelete name) w').

(** The scanner spawned by [sync]: [stderr] holds the content of the
    lines that [proc.stderr.readline()] returns, in order; the pipe is
    opened by [Popen] without a text mode, so each line is a [bytes]
    object, and past the last one [readline] returns [b''].  The result is
    how the scanner ends, and the arguments of the [job.set_progress]
    calls it made, in order. *)
Fixpoint check_progress (stderr : list string)
  : result unit * list (option Z * string) :=
  match stderr with
  | [] => (Ok tt, [])
  | read :: stderr' =>
      if String.eqb read EmptyString then (Ok tt, [])
      else
        match RE_TRANSF_search (Bytes read) with
        | Raise e => (Raise e, [])
        | Ok (Some group1) =>
            let transferred := strip group1 in
            if negb (isdigit transferred)
            then let '(r, calls) := check_progress stderr' in
                 (r, (None, transferred) :: calls)
            else check_progress stderr'
        | Ok None => check_progress stderr'
        end
  end.

(** *** put *)

(** The [while True] loop of [put]: [f] is the unread content of the
    stream behind [read_fd], [parts] and [idx] are the variables of the
    same names. *)
Equations? put_loop (client : Client) (Bucket Key UploadId : string)
   (f : bytes) (parts : list Part) (idx : Z) (w : World St)
   : result (list Part) * World St by wf (length f) lt :=
put_loop client Bucket Key UploadId f parts idx w
  with inspect (read CHUNK_SIZE f) := {
  | exist _ ([], _) _ => (Ok parts, log (EvFdRead CHUNK_SIZE []) w)
  | exist _ (b :: c, f') Hr
      with call (upload_part s3 client Bucket Key idx UploadId CHUNK_SIZE (b :: c))
                (EvUploadPart Bucket Key idx UploadId CHUNK_SIZE (b :: c))
                (log (EvFdRead CHUNK_SIZE (b :: c)) w) := {
      | (Raise e, w') => (Raise e, w')
      | (Ok etag, w') =>
          put_loop client Bucket Key UploadId f'
                   (parts ++ [{| ETag := etag; PartNumber := idx |}])
                   (idx + 1) w' } }.
Proof.
  apply read_app in Hr. subst f. rewrite length_app. simpl. lia.
Qed.

(** [read_fd] stands for the content of the stream behind the
    descriptor. *)
Definition put (backup : BackupTask) (filename : string) (read_fd : bytes)
  : M St unit :=
  let! client := get_client (task_id backup) in
  let folder := or_empty (folder (task_attributes backup)) in
  let key := os_path_join folder filename in
  let Bucket := bucket (task_attributes backup) in
  let! mp := call (create_multipart_upload s3 client Bucket key)
             (EvCreateMultipartUpload Bucket key) in
  let! parts := put_loop client Bucket key mp read_fd [] 1 in
  call (complete_multipart_upload s3 client Bucket key mp parts)
       (EvCompleteMultipartUpload Bucket key mp parts).

(** *** get *)

(** [io.DEFAULT_BUFFER_SIZE], the size of the buffer that
    [gevent.fileobject.FileObject] puts in front of the descriptor. *)
Definition DEFAULT_BUFFER_SIZE : Z := 8192.

(** [fg.write(data)] on the buffered [FileObject] whose buffer holds
    [pending].  Data that fits in the free part of the buffer is only
    buffered.  Otherwise the buffer is written to the descriptor; then data
    longer than the buffer is written to the descriptor, which takes all
    of it, and shorter data is buffered.  [EvFdWrite] records what is
    written to the descriptor.  The result is the new content of the
    buffer. *)
Definition fg_write (pending data : bytes) (w : World St) : bytes * World St :=
  if Z.of_nat (length pending) + Z.of_nat (length data) <=? DEFAULT_BUFFER_SIZE
  then (pending ++ data, w)
  else
    let w1 := match pending with
              | [] => w
              | _ :: _ => log (EvFdWrite pending) w
              end in
    if DEFAULT_BUFFER_SIZE <? Z.of_nat (length data)
    then ([], log (EvFdWrite data) w1)
    else (data, w1).

(** The [while True] loop of [get]: [body] is the unread content of
    [obj['Body']], [pending] the content of the buffer of [fg].  The
    result is what the buffer holds when the loop ends. *)
Equations? get_loop (body pending : bytes) (w : World St)
   : result bytes * World St by wf (length body) lt :=
get_loop body pending w with inspect (read CHUNK_SIZE body) := {
  | exist _ ([], _) _ => (Ok pending, w)
  | exist _ (b :: c, body') Hr
      with fg_write pending (b :: c) w := {
      | (pending', w') => get_loop body' pending' w' } }.
Proof.
  apply read_app in Hr. subst body. rewrite length_app. simpl. lia.
Qed.

(** Leaving the [with] block closes the descriptor.  Nothing flushes or
    closes [fg] before that, so what its buffer still holds is never
    written. *)
Definition get (backup : BackupTask) (filename : string) : M St unit :=
  let! client := get_client (task_id backup) in
  let folder := or_empty (folder (task_attributes backup)) in
  let key := os_path_join folder filename in
  let Bucket := bucket (task_attributes backup) in
  let! obj := call (get_object s3 client Bucket key) (EvGetObject Bucket key) in
  let! unflushed := get_loop obj [] in
  ret tt.
End WithEnv.

(** *** get_buckets and get_bucket_location

    The trace has no entry for the two listing calls; they act on the
    environment state only. *)

Section Buckets.
Context {St : Type} (listing : S3Listing St).

(** One element of the result of [get_buckets]. *)
Record BucketInfo := { name : string; creation_date : Z }.

Definition call_listing {A} (op : St -> result A * St) : M St A :=
  fun w => let '(r, s) := op (ext w) in (r, set_ext s w).

(** The [for] loop of [get_buckets]; [buckets] is the list it appends
    to. *)
Fixpoint get_buckets_loop (Buckets : list BucketEntry)
    (buckets : list BucketInfo) : list BucketInfo :=
  match Buckets with
  | [] => buckets
  | bucket :: Buckets' =>
      get_buckets_loop Buckets'
        (buckets ++ [{| name := Name bucket;
                        creation_date := CreationDate bucket |}])
  end.

Definition get_buckets (id : Z) : M St (list BucketInfo) :=
  let! client := get_client id in
  let! Buckets := call_listing (list_buckets listing client) in
  ret (get_buckets_loop Buckets []).

Definition get_bucket_location (id : Z) (name : string)
  : M St (option string) :=
  let! client := get_client id in
  call_listing (bucket_location listing client name).
End Buckets.
End BackupS3Service.

(** ** class BackupService *)

Module BackupService.
Section WithEnv.
Context {St : Type} (host : Host St).

(** [sync(job, id)]; the decorators and the job handle are left out. *)
Definition sync (id : Z) : M St bool :=
  let! backup := query_tasks_cloudsync id in
  match backup with
  | None => raise (ValueError "Unknown id")
  | Some backup =>
      let! credential := query_system_cloudcredentials (ref_id (task_credential backup)) in
      match credential with
      | None => raise (ValueError "Backup credential not found.")
      | Some credential =>
          if String.eqb (cred_provider credential) "AMAZON"
          then BackupS3Service.sync host backup credential
          else raise (NotImplementedError
                        ("Unsupported provider: " +:+ cred_provider credential))
      end
  end.
End WithEnv.
End BackupService.

(** ** Reading a trace *)

(** The file system as the calls of a trace leave it. *)
Record File := { st_mode : Z; content : string }.

Definition fs_step (fs : gmap string File) (e : Event) : gmap string File :=
  match e with
  | EvTmpCreate name mode =>
      <[name := {| st_mode := mode; content := EmptyString |}]> fs
  | EvChmod name mode =>
      alter (fun f => {| st_mode := mode; content := content f |}) name fs
  | EvFileWrite name data =>
      alter (fun f => {| st_mode := st_mode f; content := content f +:+ data |})
            name fs
  | EvTmpDelete name => delete name fs
  | _ => fs
  end.

Definition fs_after (t : list Event) : gmap string File := foldl fs_step ∅ t.

(** Permission bits of group and others, 0o077. *)
Definition group_other_bits : Z := 7 * 8 + 7.

Definition owner_only (mode : Z) : Prop := Z.land mode group_other_bits = 0.

(** The [upload_part] calls of a trace. *)
Record UploadCall := {
  call_PartNumber : Z;
  call_ContentLength : Z;
  call_Body : bytes;
  call_result : result string
}.

Definition upload_of (e : Event) : option UploadCall :=
  match e with
  | EvUploadPart _ _ n _ len body r =>
      Some {| call_PartNumber := n; call_ContentLength := len;
              call_Body := body; call_result := r |}
  | _ => None
  end.

Definition uploads (t : list Event) : list UploadCall := omap upload_of t.

(** The part lists of the [complete_multipart_upload] calls of a trace. *)
Definition complete_of (e : Event) : option (list Part) :=
  match e with
  | EvCompleteMultipartUpload _ _ _ Parts _ => Some Parts
  | _ => None
  end.

Definition completes (t : list Event) : list (list Part) := omap complete_of t.

Definition is_create (e : Event) : bool :=
  match e with EvCreateMultipartUpload _ _ _ => true | _ => false end.

(** What a run wrote to the descriptor of its destination stream. *)
Definition written_of (e : Event) : bytes :=
  match e with EvFdWrite data => data | _ => [] end.

Definition written (t : list Event) : bytes := concat (written_of <$> t).

(** The calls of the [put] loop for the chunks [cs] when the uploads
    return the tags [etags], numbering from [idx]. *)
Fixpoint part_events (Bucket Key UploadId : string) (idx : Z)
    (cs : list bytes) (etags : list string) : list Event :=
  match cs, etags with
  | c :: cs', etag :: etags' =>
      EvFdRead CHUNK_SIZE c
      :: EvUploadPart Bucket Key idx UploadId CHUNK_SIZE c (Ok etag)
      :: part_events Bucket Key UploadId (idx + 1) cs' etags'
  | _, _ => []
  end.

(** The entries the loop appends to [parts] for these tags. *)
Fixpoint new_parts (idx : Z) (etags : list string) : list Part :=
  match etags with
  | etag :: etags' =>
      {| ETag := etag; PartNumber := idx |} :: new_parts (idx + 1) etags'
  | [] => []
  end.

(** The chunks that the successive reads of a transfer loop return for a
    stream whose unread content is [f], up to the empty read that ends the
    loop. *)
Equations? chunks (f : bytes) : list bytes by wf (length f) lt :=
chunks f with inspect (read CHUNK_SIZE f) := {
  | exist _ ([], _) _ => []
  | exist _ (b :: c, f') Hr => (b :: c) :: chunks f' }.
Proof.
  apply read_app in Hr. subst f. rewrite length_app. simpl. lia.
Qed.

(** ** A reference object store

    Modelled from the spec: the object store behind the boto3 client is
    not part of this plugin.  The spec describes multipart upload as a
    protocol for uploading an object as independently uploaded, ordered
    parts, finalized by a completion call listing all parts, each part
    answered by an opaque integrity tag required at completion; it says
    that the store rejects out-of-order or gapped part lists, and that
    [get_object] returns the body of the object.  The store below does
    exactly that.  It keeps the body it is given for a part whatever
    content length the call declares. *)

Module ObjectStore.
Record Upload := {
  up_bucket : string;
  up_key : string;
  up_parts : gmap Z (string * bytes)
}.

Record Store := {
  upload_sessions : gmap string Upload;
  objects : gmap (string * string) bytes;
  next_upload : N
}.

Definition empty : Store :=
  {| upload_sessions := ∅; objects := ∅; next_upload := 0 |}.

Section WithETag.
Context (etag_of : bytes -> string).

Definition create (_ : Client) (Bucket Key : string) (s : Store)
  : result string * Store :=
  let UploadId := pretty (next_upload s) in
  (Ok UploadId,
   {| upload_sessions :=
        <[UploadId := {| up_bucket := Bucket; up_key := Key; up_parts := ∅ |}]>
          (upload_sessions s);
      objects := objects s;
      next_upload := N.succ (next_upload s) |}).

Definition session (Bucket Key UploadId : string) (s : Store) : option Upload :=
  match upload_sessions s !! UploadId with
  | Some u =>
      if String.eqb (up_bucket u) Bucket && String.eqb (up_key u) Key
      then Some u else None
  | None => None
  end.

Definition upload (_ : Client) (Bucket Key : string) (PartNumber : Z)
    (UploadId : string) (ContentLength : Z) (Body : bytes) (s : Store)
  : result string * Store :=
  match session Bucket Key UploadId s with
  | None => (Raise (ClientError "NoSuchUpload"), s)
  | Some u =>
      let etag := etag_of Body in
      (Ok etag,
       {| upload_sessions :=
            <[UploadId := {| up_bucket := Bucket; up_key := Key;
                             up_parts := <[PartNumber := (etag, Body)]> (up_parts u) |}]>
              (upload_sessions s);
          objects := objects s;
          next_upload := next_upload s |})
  end.

(** The bodies of the listed parts, in the order listed; [None] when a
    listed part was never uploaded or its tag is not the one returned. *)
Fixpoint assemble (stored : gmap Z (string * bytes)) (Parts : list Part)
  : option bytes :=
  match Parts with
  | [] => Some []
  | p :: Parts' =>
      match stored !! PartNumber p with
      | Some (etag, body) =>
          if String.eqb etag (ETag p)
          then match assemble stored Parts' with
               | Some rest => Some (body ++ rest)
               | None => None
               end
          else None
      | None => None
      end
  end.

(** Part numbers 1, 2, ..., in this order and without a gap. *)
Fixpoint contiguous_from (n : Z) (Parts : list Part) : bool :=
  match Parts with
  | [] => true
  | p :: Parts' => (PartNumber p =? n) && contiguous_from (n + 1) Parts'
  end.

Definition complete (_ : Client) (Bucket Key UploadId : string)
    (Parts : list Part) (s : Store) : result unit * Store :=
  match session Bucket Key UploadId s with
  | None => (Raise (ClientError "NoSuchUpload"), s)
  | Some u =>
      if contiguous_from 1 Parts then
        match assemble (up_parts u) Parts with
        | Some body =>
            (Ok tt,
             {| upload_sessions := delete UploadId (upload_sessions s);
                objects := <[(Bucket, Key) := body]> (objects s);
                next_upload := next_upload s |})
        | None => (Raise (ClientError "InvalidPart"), s)
        end
      else (Raise (ClientError "InvalidPartOrder"), s)
  end.

Definition get (_ : Client) (Bucket Key : string) (s : Store)
  : result bytes * Store :=
  match objects s !! (Bucket, Key) with
  | Some body => (Ok body, s)
  | None => (Raise (ClientError "NoSuchKey"), s)
  end.

Definition s3 : S3 Store :=
  {| create_multipart_upload := create;
     upload_part := upload;
     complete_multipart_upload := complete;
     get_object := get |}.
End WithETag.
End ObjectStore.

(** ** Predicates and abbreviations of the statements *)

(** Every creation and every [chmod] of the trace uses mode 0600. *)
Definition restricts (e : Event) : Prop :=
  match e with
  | EvTmpCreate _ mode | EvChmod _ mode => mode = BackupS3Service.mode_0o600
  | _ => True
  end.

Definition all_0o600 (fs : gmap string File) : Prop :=
  forall name f, fs !! name = Some f -> st_mode f = BackupS3Service.mode_0o600.

(** The key both [put] and [get] compute for a task and a file name. *)
Definition key_of (backup : BackupTask) (filename : string) : string :=
  os_path_join (or_empty (folder (task_attributes backup))) filename.

Definition client_of (credential : CloudCredential) : Client :=
  {| aws_access_key_id := cred_attributes credential !! "access_key";
     aws_secret_access_key := cred_attributes credential !! "secret_key" |}.

Definition is_get_object (e : Event) : bool :=
  match e with EvGetObject _ _ _ => true | _ => false end.

Definition is_fd_read (e : Event) : bool :=
  match e with EvFdRead _ _ => true | _ => false end.

(** The key an object-store call addresses. *)
Definition key_in (e : Event) : option string :=
  match e with
  | EvCreateMultipartUpload _ Key _ | EvUploadPart _ Key _ _ _ _ _
  | EvCompleteMultipartUpload _ Key _ _ _ | EvGetObject _ Key _ => Some Key
  | _ => None
  end.

(** The session an object-store call of [put] addresses. *)
Definition session_of (e : Event) : option (string * string * string) :=
  match e with
  | EvUploadPart Bucket Key _ UploadId _ _ _ => Some (Bucket, Key, UploadId)
  | EvCompleteMultipartUpload Bucket Key UploadId _ _ =>
      Some (Bucket, Key, UploadId)
  | _ => None
  end.

(** ** Sample inputs

    A datastore, a host and two clients at which the theorems below are
    instantiated. *)

Module Sample.
Definition attributes : gmap string string :=
  <["access_key" := "AKIDEXAMPLE"]> (<["secret_key" := "s3cr3t"]> ∅).

Definition amazon : CloudCredential :=
  {| cred_id := 1; cred_provider := "AMAZON"; cred_attributes := attributes |}.

Definition dropbox : CloudCredential :=
  {| cred_id := 2; cred_provider := "DROPBOX"; cred_attributes := ∅ |}.

Definition task (id cred : Z) : BackupTask :=
  {| task_id := id; task_path := "/mnt/tank/data";
     task_credential := {| ref_id := cred |};
     task_attributes := {| bucket := "bkt"; folder := Some "dir";
                           region := None |} |}.

(** Tasks 1, 2 and 3 use the S3 credential, the other provider and a
    credential that does not exist. *)
Definition world {St} (s : St) : World St :=
  {| trace := [];
     tasks_cloudsync := <[1 := task 1 1]> (<[2 := task 2 2]> (<[3 := task 3 9]> ∅));
     system_cloudcredentials := <[1 := amazon]> (<[2 := dropbox]> ∅);
     ext := s |}.

(** The reference object store with the length of a body as its tag. *)
Definition etag_of (body : bytes) : string := pretty (N.of_nat (length body)).

Definition store : S3 ObjectStore.Store := ObjectStore.s3 etag_of.

(** A client that accepts as many uploads as the state says and then
    times out. *)
Definition flaky : S3 Z :=
  {| create_multipart_upload := fun _ _ _ s => (Ok "upload-1", s);
     upload_part := fun _ _ _ _ _ _ _ s =>
       if 0 <? s then (Ok "etag", s - 1)
       else (Raise (ClientError "RequestTimeout"), s);
     complete_multipart_upload := fun _ _ _ _ _ s => (Ok tt, s);
     get_object := fun _ _ _ s => (Raise (ClientError "NoSuchKey"), s) |}.

Definition three_bytes : bytes := ["001"; "002"; "003"]%byte.

(** A credential record without a secret key. *)
Definition keyless : CloudCredential :=
  {| cred_id := 4; cred_provider := "AMAZON";
     cred_attributes := <["access_key" := "AKIDEXAMPLE"]> ∅ |}.

(** A host on which rclone cannot be started. *)
Definition no_rclone : Host Z :=
  {| mkstemp := fun s => (Ok "/tmp/tmpq1w2e3", s);
     popen := fun _ s => (Raise (OSError "No such file or directory"), s);
     communicate := fun s => ((EmptyString, s), s);
     format_bytes := fun b => b |}.

(** A client that is refused the creation of a session. *)
Definition denied : S3 Z :=
  {| create_multipart_upload := fun _ _ _ s =>
       (Raise (ClientError "AccessDenied"), s + 1);
     upload_part := fun _ _ _ _ _ _ _ s => (Ok "etag", s);
     complete_multipart_upload := fun _ _ _ _ _ s => (Ok tt, s);
     get_object := fun _ _ _ s => (Raise (ClientError "AccessDenied"), s) |}.

(** A listing client with two buckets. *)
Definition listing : S3Listing Z :=
  {| list_buckets := fun _ s =>
       (Ok [ {| Name := "logs"; CreationDate := 1480550400 |};
             {| Name := "media"; CreationDate := 1480636800 |} ], s + 1);
     bucket_location := fun _ name s =>
       (Ok (if String.eqb name "logs" then Some "eu-west-1" else None), s) |}.

(** A host whose rclone exits with the code held in the state. *)
Definition host : Host Z :=
  {| mkstemp := fun s => (Ok "/tmp/tmpq1w2e3", s);
     popen := fun _ s => (Ok tt, s);
     communicate := fun s => (("Failed to sync", s), s);
     format_bytes := fun b => b |}.
End Sample.

(** * Properties *)

(** ** Provider dispatch *)

(** C7: an unknown task id makes [sync] raise right after the task lookup,
    before any credential lookup; an unresolved credential makes it raise
    right after the credential lookup, before the provider is looked at.
    Nothing catches either exception. *)
Theorem sync_not_found {St} (host : Host St) (w : World St) (id : Z) :
  (tasks_cloudsync w !! id = None ->
   BackupService.sync host id w =
     (Raise (ValueError "Unknown id"), log (EvQuery "tasks.cloudsync" id) w))
  /\
  (forall backup,
     tasks_cloudsync w !! id = Some backup ->
     system_cloudcredentials w !! ref_id (task_credential backup) = None ->
     BackupService.sync host id w =
       (Raise (ValueError "Backup credential not found."),
        log (EvQuery "system.cloudcredentials" (ref_id (task_credential backup)))
            (log (EvQuery "tasks.cloudsync" id) w))).
Proof.
  split.
  - intros Hid. unfold BackupService.sync, bind, query_tasks_cloudsync.
    by rewrite Hid.
  - intros backup Hid Hcred.
    unfold BackupService.sync, bind, query_tasks_cloudsync,
      query_system_cloudcredentials.
    rewrite Hid. simpl. by rewrite Hcred.
Qed.

Lemma sync_not_found_witness :
  BackupService.sync Sample.host 7 (Sample.world 0) =
    (Raise (ValueError "Unknown id"),
     log (EvQuery "tasks.cloudsync" 7) (Sample.world 0))
  /\
  BackupService.sync Sample.host 3 (Sample.world 0) =
    (Raise (ValueError "Backup credential not found."),
     log (EvQuery "system.cloudcredentials" 9)
         (log (EvQuery "tasks.cloudsync" 3) (Sample.world 0))).
Proof.
  split.
  - apply (proj1 (sync_not_found Sample.host (Sample.world 0) 7)).
    reflexivity.
  - apply (proj2 (sync_not_found Sample.host (Sample.world 0) 3)
             (Sample.task 3 9)); reflexivity.
Defined.

(** C4: a credential whose provider is not the supported one makes [sync]
    raise an error whose message ends in the provider value; the only
    calls made are the two datastore lookups, and the environment state is
    untouched. *)
Theorem sync_unsupported_provider {St} (host : Host St) (w : World St)
    (id : Z) (backup : BackupTask) (credential : CloudCredential) :
  tasks_cloudsync w !! id = Some backup ->
  system_cloudcredentials w !! ref_id (task_credential backup) = Some credential ->
  cred_provider credential <> "AMAZON" ->
  exists w',
    BackupService.sync host id w =
      (Raise (NotImplementedError
                ("Unsupported provider: " +:+ cred_provider credential)), w')
    /\ trace w' = trace w ++
         [EvQuery "tasks.cloudsync" id;
          EvQuery "system.cloudcredentials" (ref_id (task_credential backup))]
    /\ ext w' = ext w.
Proof.
  intros Hid Hcred Hprov.
  unfold BackupService.sync, bind, query_tasks_cloudsync,
    query_system_cloudcredentials.
  rewrite Hid. simpl. rewrite Hcred.
  destruct (String.eqb_spec (cred_provider credential) "AMAZON") as [|_];
    [done|].
  eexists. split; [reflexivity|]. simpl. by rewrite <- app_assoc.
Qed.

Lemma sync_unsupported_provider_witness :
  exists w',
    BackupService.sync Sample.host 2 (Sample.world 0) =
      (Raise (NotImplementedError "Unsupported provider: DROPBOX"), w')
    /\ trace w' = [EvQuery "tasks.cloudsync" 2;
                   EvQuery "system.cloudcredentials" 2]
    /\ ext w' = 0.
Proof.
  apply (sync_unsupported_provider Sample.host (Sample.world 0) 2
           (Sample.task 2 2) Sample.dropbox); [reflexivity|reflexivity|].
  intros H. discriminate H.
Defined.

(** ** Tree sync *)

Section TreeSync.
Context {St : Type} (host : Host St).

Lemma sync_with_after_popen backup credential name w ak sk s2 :
  cred_attributes credential !! "access_key" = Some ak ->
  cred_attributes credential !! "secret_key" = Some sk ->
  popen host (BackupS3Service.rclone_args backup name) (ext w) = (Ok tt, s2) ->
  fst (BackupS3Service.sync_with host backup credential name w) =
    let '(out, _) := communicate host s2 in
    if snd out =? 0 then Ok true
    else Raise (ValueError ("rclone failed: " +:+ format_bytes host (fst out))).
Proof.
  intros Hak Hsk Hp.
  unfold BackupS3Service.sync_with, bind, emit, getitem, call, ret, raise.
  rewrite Hak, Hsk. simpl. rewrite Hp. simpl.
  destruct (communicate host s2) as [[stderr rc] s3]. simpl.
  by destruct (rc =? 0).
Qed.

(** C8: once rclone has been started, its exit code decides the outcome:
    a non-zero code raises an error whose message carries what
    [communicate] captured of the error stream, code zero returns
    [True]. *)
Theorem sync_exit_code backup credential w name ak sk s1 s2 s3 stderr rc :
  mkstemp host (ext w) = (Ok name, s1) ->
  cred_attributes credential !! "access_key" = Some ak ->
  cred_attributes credential !! "secret_key" = Some sk ->
  popen host (BackupS3Service.rclone_args backup name) s1 = (Ok tt, s2) ->
  communicate host s2 = ((stderr, rc), s3) ->
  (rc <> 0 ->
   fst (BackupS3Service.sync host backup credential w) =
     Raise (ValueError ("rclone failed: " +:+ format_bytes host stderr)))
  /\ (rc = 0 ->
      fst (BackupS3Service.sync host backup credential w) = Ok true).
Proof.
  intros Hmk Hak Hsk Hp Hc.
  assert (fst (BackupS3Service.sync host backup credential w) =
          if rc =? 0 then Ok true
          else Raise (ValueError ("rclone failed: " +:+ format_bytes host stderr)))
    as ->.
  { unfold BackupS3Service.sync, bind, BackupS3Service.NamedTemporaryFile.
    rewrite Hmk.
    pose proof (sync_with_after_popen backup credential name
      (log (EvTmpCreate name BackupS3Service.mode_0o600) (set_ext s1 w))
      ak sk s2 Hak Hsk Hp) as Hrun.
    rewrite Hc in Hrun. simpl in Hrun.
    destruct (BackupS3Service.sync_with _ _ _ _ _) as [r w']. simpl in *.
    exact Hrun. }
  split; intros Hrc.
  - by destruct (Z.eqb_spec rc 0).
  - by subst rc.
Qed.
End TreeSync.

Lemma sync_exit_code_witness :
  fst (BackupS3Service.sync Sample.host (Sample.task 1 1) Sample.amazon
         (Sample.world 1)) =
    Raise (ValueError "rclone failed: Failed to sync")
  /\ fst (BackupS3Service.sync Sample.host (Sample.task 1 1) Sample.amazon
            (Sample.world 0)) = Ok true.
Proof.
  split.
  - apply (proj1 (sync_exit_code Sample.host (Sample.task 1 1) Sample.amazon
                    (Sample.world 1) "/tmp/tmpq1w2e3" "AKIDEXAMPLE" "s3cr3t"
                    1 1 1 "Failed to sync" 1
                    eq_refl eq_refl eq_refl eq_refl eq_refl)).
    discriminate.
  - apply (proj2 (sync_exit_code Sample.host (Sample.task 1 1) Sample.amazon
                    (Sample.world 0) "/tmp/tmpq1w2e3" "AKIDEXAMPLE" "s3cr3t"
                    0 0 0 "Failed to sync" 0
                    eq_refl eq_refl eq_refl eq_refl eq_refl)).
    reflexivity.
Defined.

(** ** The temporary configuration file *)

Lemma fs_step_0o600 fs e : all_0o600 fs -> restricts e -> all_0o600 (fs_step fs e).
Proof.
  intros Hfs He name f.
  destruct e; simpl in *; try apply Hfs.
  - rewrite lookup_insert. case_decide; [|apply Hfs].
    intros [= <-]. by simpl.
  - rewrite lookup_alter. case_decide; [|apply Hfs].
    destruct (fs !! name0); [|done]. intros [= <-]. by simpl.
  - rewrite lookup_alter. case_decide; [|apply Hfs].
    destruct (fs !! name0) as [f0|] eqn:E; [|done]. intros [= <-]. simpl.
    by eapply Hfs.
  - rewrite lookup_delete. case_decide; [done|apply Hfs].
Qed.

Lemma foldl_fs_step_0o600 t fs :
  all_0o600 fs -> Forall restricts t -> all_0o600 (foldl fs_step fs t).
Proof.
  revert fs. induction t as [|e t IH]; intros fs Hfs Ht; simpl; [done|].
  inversion Ht; subst. apply IH; [by apply fs_step_0o600|done].
Qed.

Lemma fs_after_prefix_0o600 t p :
  Forall restricts t -> p `prefix_of` t -> all_0o600 (fs_after p).
Proof.
  intros Ht [q ->]. apply Forall_app in Ht as [Hp _].
  apply foldl_fs_step_0o600; [|done]. intros name f. by rewrite lookup_empty.
Qed.

Lemma mode_0o600_owner_only : owner_only BackupS3Service.mode_0o600.
Proof. reflexivity. Qed.

(** The calls of one tree sync, for every behaviour of the host: nothing
    when the temporary file cannot be created, otherwise creation, [chmod],
    and then as far as the body gets before the file is deleted. *)
Lemma sync_trace {St} (host : Host St) backup credential (w : World St) :
  exists t,
    trace (snd (BackupS3Service.sync host backup credential w)) = trace w ++ t
    /\ (t = [] \/
        exists name rest,
          t = EvTmpCreate name BackupS3Service.mode_0o600
              :: EvChmod name BackupS3Service.mode_0o600 :: rest
          /\ (rest = [EvTmpDelete name] \/
              exists data tail,
                rest = EvFileWrite name data :: EvFileFlush name :: tail
                /\ Forall (fun e => match e with
                                    | EvPopen _ _ | EvSpawnCheckProgress
                                    | EvCommunicate _ _ | EvTmpDelete _ => True
                                    | _ => False
                                    end) tail)).
Proof.
  unfold BackupS3Service.sync, bind, BackupS3Service.NamedTemporaryFile.
  destruct (mkstemp host (ext w)) as [[name|e] s1].
  2:{ exists []. simpl. rewrite app_nil_r. by split; [|left]. }
  unfold BackupS3Service.sync_with, bind, emit, getitem, call, ret, raise.
  simpl.
  destruct (cred_attributes credential !! "access_key") as [ak|]; simpl.
  2:{ eexists. split; [by rewrite <- !app_assoc|]. right.
      eexists _, _. split; [reflexivity|by left]. }
  destruct (cred_attributes credential !! "secret_key") as [sk|]; simpl.
  2:{ eexists. split; [by rewrite <- !app_assoc|]. right.
      eexists _, _. split; [reflexivity|by left]. }
  destruct (popen host _ s1) as [[[]|e] s2]; simpl.
  2:{ eexists. split; [by rewrite <- !app_assoc|]. right.
      eexists _, _. split; [reflexivity|]. right.
      eexists _, _. split; [reflexivity|]. by repeat constructor. }
  destruct (communicate host s2) as [[stderr rc] s3]; simpl.
  destruct (rc =? 0); simpl.
  all: eexists; split; [by rewrite <- !app_assoc|]; right.
  all: eexists _, _; split; [reflexivity|]; right.
  all: eexists _, _; split; [reflexivity|]; by repeat constructor.
Qed.

(** C6: in every tree sync, at every point of the run each file the run
    created has mode 0600, which grants nothing to group or others; and
    when the configuration is written, the file has been restricted by
    [chmod] and is still empty. *)
Theorem sync_tmpfile_owner_only {St} (host : Host St) backup credential
    (w : World St) :
  exists t,
    trace (snd (BackupS3Service.sync host backup credential w)) = trace w ++ t
    /\ (forall p name f,
          p `prefix_of` t -> fs_after p !! name = Some f ->
          st_mode f = BackupS3Service.mode_0o600 /\ owner_only (st_mode f))
    /\ (forall p name data q,
          t = p ++ EvFileWrite name data :: q ->
          EvChmod name BackupS3Service.mode_0o600 ∈ p
          /\ fs_after p !! name =
               Some {| st_mode := BackupS3Service.mode_0o600;
                       content := EmptyString |}).
Proof.
  destruct (sync_trace host backup credential w) as (t & Htr & Ht).
  exists t. split; [done|].
  assert (Forall restricts t) as Hall.
  { destruct Ht as [->|(name & rest & -> & Hrest)]; [constructor|].
    repeat (constructor; [by simpl|]).
    destruct Hrest as [->|(data & tail & -> & Htail)].
    - by repeat constructor.
    - repeat (constructor; [by simpl|]).
      eapply Forall_impl; [exact Htail|]. by intros []. }
  split.
  - intros p name f Hp Hf.
    pose proof (fs_after_prefix_0o600 t p Hall Hp name f Hf) as Hm.
    split; [done|]. rewrite Hm. apply mode_0o600_owner_only.
  - intros p name data q Heq.
    destruct Ht as [->|(name' & rest & -> & Hrest)].
    { by destruct p. }
    destruct p as [|e1 p]; [discriminate Heq|].
    destruct p as [|e2 p]; [discriminate Heq|].
    simpl in Heq. injection Heq as <- <- Heq.
    destruct Hrest as [->|(data' & tail & -> & Htail)].
    { destruct p as [|? [|? ?]]; discriminate Heq. }
    destruct p as [|e3 p].
    + injection Heq as <- <- <-. split.
      * apply list_elem_of_In. simpl. auto.
      * unfold fs_after. simpl. rewrite alter_insert_eq. simpl.
        apply lookup_insert_eq.
    + exfalso. simpl in Heq. injection Heq as <- Heq.
      destruct p as [|e4 p]; [discriminate Heq|].
      simpl in Heq. injection Heq as <- Heq.
      rewrite Heq in Htail. apply Forall_app in Htail as [_ Htail].
      by inversion Htail.
Qed.

(** ** The progress scanner *)

(** C3: the scanner applies a pattern compiled from a [str] to the
    [bytes] that [readline] returns.  So on the first non-empty line it
    reads, whatever the line, [RE_TRANSF.search] raises [TypeError], the
    scanner ends there and no progress message is published; in
    particular the line [Transferred: 42%], for which a message is
    expected, publishes nothing.  On every stream the scanner makes no
    [set_progress] call at all. *)
Theorem check_progress_type_error (read : string) (stderr' : list string) :
  read <> EmptyString ->
  BackupS3Service.check_progress (read :: stderr') =
    (Raise (TypeError "cannot use a string pattern on a bytes-like object"), [])
  /\ BackupS3Service.check_progress ("Transferred: 42%" :: stderr') =
       (Raise (TypeError "cannot use a string pattern on a bytes-like object"),
        [])
  /\ forall stderr, snd (BackupS3Service.check_progress stderr) = [].
Proof.
  intros Hne. split; [|split].
  - cbn [BackupS3Service.check_progress RE_TRANSF_search].
    by destruct (String.eqb_spec read EmptyString).
  - reflexivity.
  - intros [|read0 stderr0]; [reflexivity|].
    cbn [BackupS3Service.check_progress RE_TRANSF_search].
    by destruct (String.eqb read0 EmptyString).
Qed.

Lemma check_progress_type_error_witness :
  BackupS3Service.check_progress
    [String.append "Transferred: 42%" (String "010" EmptyString);
     "Transferred: 1048576"] =
    (Raise (TypeError "cannot use a string pattern on a bytes-like object"), []).
Proof.
  apply (check_progress_type_error
           (String.append "Transferred: 42%" (String "010" EmptyString))
           ["Transferred: 1048576"]).
  discriminate.
Defined.

(** *** The pattern on text

    What the pattern captures when it is given a [str]: all that follows
    the first [Transferred:]. *)

Lemma group_dollar_nonempty c s :
  group_dollar (String c s) = Some (String c s).
Proof.
  revert c. induction s as [|c' s IH]; intros c; [reflexivity|].
  change (group_dollar (String c (String c' s)))
    with (match group_dollar (String c' s) with
          | Some g => Some (String c g)
          | None => if at_dollar (String c' s)
                    then Some (String c EmptyString) else None
          end).
  by rewrite IH.
Qed.

Lemma spaces_group_dollar_nonempty c s :
  spaces_group_dollar (String c s) = Some (String c s).
Proof.
  unfold spaces_group_dollar; fold spaces_group_dollar.
  by rewrite group_dollar_nonempty.
Qed.

Lemma literal_Some p s s' : literal p s = Some s' -> s = p +:+ s'.
Proof.
  revert s. induction p as [|a p IH]; intros s; simpl.
  - by intros [= ->].
  - destruct s as [|b s]; [done|].
    destruct (Ascii.eqb_spec a b) as [->|]; [|done].
    intros H. by rewrite (IH _ H).
Qed.

Lemma RE_TRANSF_match_Some s value :
  RE_TRANSF_match s = Some value ->
  s = "Transferred:" +:+ value /\ value <> EmptyString.
Proof.
  unfold RE_TRANSF_match.
  destruct (literal "Transferred:" s) as [s'|] eqn:E; [|done].
  apply literal_Some in E. destruct s' as [|c s']; [done|].
  rewrite spaces_group_dollar_nonempty. by intros [= <-].
Qed.

Lemma RE_TRANSF_search_Str s value :
  RE_TRANSF_search (Str s) = Ok (Some value) ->
  exists pre, s = pre +:+ "Transferred:" +:+ value /\ value <> EmptyString.
Proof.
  intros [= H]. revert H. induction s as [|c s IH].
  - unfold RE_TRANSF_scan.
    destruct (RE_TRANSF_match EmptyString) as [g|] eqn:E; [|done].
    by apply RE_TRANSF_match_Some in E as [? _].
  - unfold RE_TRANSF_scan; fold RE_TRANSF_scan.
    destruct (RE_TRANSF_match (String c s)) as [g|] eqn:E.
    + intros [= <-]. apply RE_TRANSF_match_Some in E as [E ?].
      by exists EmptyString.
    + intros H. destruct (IH H) as (pre & -> & ?).
      by exists (String c pre).
Qed.

(** ** Reading in chunks *)

Lemma CHUNK_SIZE_pos : 0 < CHUNK_SIZE.
Proof. reflexivity. Qed.

Lemma read_length n f c r :
  0 <= n -> read n f = (c, r) ->
  Z.of_nat (length c) = Z.min n (Z.of_nat (length f)).
Proof.
  revert n c r. induction f as [|b f IH]; intros n c r Hn; simpl.
  - intros [= <- <-]. simpl. lia.
  - destruct (Z.eqb_spec n 0) as [->|Hne].
    + intros [= <- <-]. simpl. lia.
    + destruct (read (n - 1) f) as [c' r'] eqn:E. intros [= <- <-].
      apply IH in E; [|lia]. simpl length. lia.
Qed.

Lemma chunks_eof f r : read CHUNK_SIZE f = ([], r) -> chunks f = [].
Proof. funelim (chunks f); intros; [reflexivity|congruence]. Qed.

Lemma chunks_cons f b c f' :
  read CHUNK_SIZE f = (b :: c, f') -> chunks f = (b :: c) :: chunks f'.
Proof.
  funelim (chunks f); intros Hr'; [congruence|].
  rewrite Hr in Hr'. by injection Hr' as <- <- <-.
Qed.

(** Case analysis on the first read of a stream. *)
Lemma read_cases f :
  (f = [] /\ read CHUNK_SIZE f = ([], []))
  \/ (exists b c f',
        read CHUNK_SIZE f = (b :: c, f') /\ f = (b :: c) ++ f'
        /\ Z.of_nat (length (b :: c)) = Z.min CHUNK_SIZE (Z.of_nat (length f))).
Proof.
  destruct (read CHUNK_SIZE f) as [ch r] eqn:E.
  pose proof (read_app _ _ _ _ E) as Happ.
  pose proof (read_length _ _ _ _ (Z.lt_le_incl _ _ CHUNK_SIZE_pos) E) as Hlen.
  destruct ch as [|b c].
  - left. pose proof CHUNK_SIZE_pos. simpl in Hlen.
    destruct f; [|simpl in Hlen; lia]. simpl in E. by rewrite E.
  - right. by exists b, c, r.
Qed.

Lemma chunks_nil : chunks [] = [].
Proof. by apply (chunks_eof [] []). Qed.

Lemma chunks_ind (P : bytes -> list bytes -> Prop) :
  P [] [] ->
  (forall b c f',
     read CHUNK_SIZE ((b :: c) ++ f') = (b :: c, f') ->
     Z.of_nat (length (b :: c)) =
       Z.min CHUNK_SIZE (Z.of_nat (length ((b :: c) ++ f'))) ->
     P f' (chunks f') -> P ((b :: c) ++ f') ((b :: c) :: chunks f')) ->
  forall f, P f (chunks f).
Proof.
  intros Hnil Hcons f.
  induction f as [f IH] using (induction_ltof1 _ (@length byte)).
  destruct (read_cases f) as [[-> _]|(b & c & f' & Hr & Hf & Hlen)].
  - by rewrite chunks_nil.
  - rewrite (chunks_cons _ _ _ _ Hr). subst f. apply Hcons; [done|done|].
    apply IH. unfold ltof. rewrite length_app. simpl. lia.
Qed.

Lemma chunks_concat f : concat (chunks f) = f.
Proof.
  apply (chunks_ind (fun f cs => concat cs = f)); [done|].
  intros b c f' _ _ IH. simpl. by rewrite IH.
Qed.

Lemma chunks_nonempty f : Forall (fun c => c <> []) (chunks f).
Proof.
  apply (chunks_ind (fun _ cs => Forall (fun c => c <> []) cs)); [constructor|].
  intros b c f' _ _ IH. by constructor.
Qed.

(** The number of chunks is the length divided by the chunk size, rounded
    up. *)
Lemma chunks_count f :
  Z.of_nat (length (chunks f)) =
    (Z.of_nat (length f) + CHUNK_SIZE - 1) / CHUNK_SIZE.
Proof.
  pose proof CHUNK_SIZE_pos as Hpos.
  apply (chunks_ind (fun f cs =>
    Z.of_nat (length cs) = (Z.of_nat (length f) + CHUNK_SIZE - 1) / CHUNK_SIZE)).
  - simpl. symmetry. apply Z.div_small. lia.
  - intros b c f' _ Hlen IH.
    assert (0 < Z.of_nat (length (b :: c))) as Hch by (simpl; lia).
    set (ch := b :: c) in *. clearbody ch.
    rewrite length_app, Nat2Z.inj_add in *.
    simpl length. rewrite Nat2Z.inj_succ, IH.
    destruct (Z.le_gt_cases CHUNK_SIZE (Z.of_nat (length ch) + Z.of_nat (length f')))
      as [Hfull|Hshort].
    + replace (Z.of_nat (length ch) + Z.of_nat (length f') + CHUNK_SIZE - 1)
        with (Z.of_nat (length f') + CHUNK_SIZE - 1 + 1 * CHUNK_SIZE) by lia.
      rewrite Z.div_add by lia. lia.
    + assert (Z.of_nat (length f') = 0) as -> by lia.
      rewrite (Z.div_small (0 + CHUNK_SIZE - 1)) by lia.
      change (Z.succ 0) with 1.
      apply (Z.div_unique _ _ 1 (Z.of_nat (length ch) - 1)); lia.
Qed.

(** Every chunk but the last is full; the last one holds the remainder, or
    is full when the length is a multiple of the chunk size. *)
Lemma chunks_sizes f init last :
  chunks f = init ++ [last] ->
  Forall (fun c => Z.of_nat (length c) = CHUNK_SIZE) init
  /\ Z.of_nat (length last) =
       if Z.of_nat (length f) mod CHUNK_SIZE =? 0 then CHUNK_SIZE
       else Z.of_nat (length f) mod CHUNK_SIZE.
Proof.
  pose proof CHUNK_SIZE_pos as Hpos.
  revert init.
  apply (chunks_ind (fun f cs => forall init, cs = init ++ [last] ->
    Forall (fun c => Z.of_nat (length c) = CHUNK_SIZE) init
    /\ Z.of_nat (length last) =
         if Z.of_nat (length f) mod CHUNK_SIZE =? 0 then CHUNK_SIZE
         else Z.of_nat (length f) mod CHUNK_SIZE)).
  - intros init H. by destruct init.
  - intros b c f' _ Hlen IH init Heq.
    assert (0 < Z.of_nat (length (b :: c))) as Hch by (simpl; lia).
    set (ch := b :: c) in *. clearbody ch.
    rewrite length_app, Nat2Z.inj_add in *.
    destruct init as [|c0 init].
    + simpl in Heq. injection Heq as <- Hnil.
      pose proof (chunks_concat f') as Hc. rewrite Hnil in Hc. simpl in Hc.
      subst f'. simpl length in *. rewrite Z.add_0_r in *.
      split; [constructor|].
      destruct (Z.eq_dec (Z.of_nat (length ch)) CHUNK_SIZE) as [->|Hne].
      * rewrite Z.mod_same by lia. reflexivity.
      * rewrite Z.mod_small by lia.
        destruct (Z.eqb_spec (Z.of_nat (length ch)) 0) as [H0|_]; [lia|done].
    + simpl in Heq. injection Heq as <- Hrest.
      destruct (IH init Hrest) as [Hinit Hlast].
      assert (f' <> []) as Hf'.
      { intros ->. rewrite chunks_nil in Hrest. by destruct init. }
      assert (0 < Z.of_nat (length f')) by (destruct f'; simpl; [done|lia]).
      assert (Z.of_nat (length ch) = CHUNK_SIZE) as Hfull by lia.
      split; [by constructor|].
      rewrite Hlast, Hfull.
      replace (CHUNK_SIZE + Z.of_nat (length f'))
        with (Z.of_nat (length f') + 1 * CHUNK_SIZE) by lia.
      by rewrite Z.mod_add by lia.
Qed.

(** ** The upload loop *)

Lemma call_inv {St A} (op : St -> result A * St) (ev : result A -> Event)
    (w : World St) r w' :
  call op ev w = (r, w') ->
  exists s, op (ext w) = (r, s) /\ w' = log (ev r) (set_ext s w).
Proof.
  unfold call. destruct (op (ext w)) as [r0 s]. intros [= <- <-]. by exists s.
Qed.

Lemma call_eq {St A} (op : St -> result A * St) (ev : result A -> Event)
    (w : World St) r s :
  op (ext w) = (r, s) -> call op ev w = (r, log (ev r) (set_ext s w)).
Proof. unfold call. by intros ->. Qed.

Section PutLoop.
Context {St : Type} (s3 : S3 St).
Context (client : Client) (Bucket Key UploadId : string).

Lemma put_loop_eof f r parts idx (w : World St) :
  read CHUNK_SIZE f = ([], r) ->
  BackupS3Service.put_loop s3 client Bucket Key UploadId f parts idx w =
    (Ok parts, log (EvFdRead CHUNK_SIZE []) w).
Proof.
  funelim (BackupS3Service.put_loop s3 client Bucket Key UploadId f parts idx w);
    intros; [reflexivity|congruence|congruence].
Qed.

Lemma put_loop_chunk f b c f' parts idx (w : World St) :
  read CHUNK_SIZE f = (b :: c, f') ->
  BackupS3Service.put_loop s3 client Bucket Key UploadId f parts idx w =
    match call (upload_part s3 client Bucket Key idx UploadId CHUNK_SIZE (b :: c))
               (EvUploadPart Bucket Key idx UploadId CHUNK_SIZE (b :: c))
               (log (EvFdRead CHUNK_SIZE (b :: c)) w) with
    | (Ok etag, w') =>
        BackupS3Service.put_loop s3 client Bucket Key UploadId f'
          (parts ++ [{| ETag := etag; PartNumber := idx |}]) (idx + 1) w'
    | (Raise e, w') => (Raise e, w')
    end.
Proof.
  funelim (BackupS3Service.put_loop s3 client Bucket Key UploadId f parts idx w);
    intros Hr'; [congruence| |].
  all: rewrite Hr in Hr'; injection Hr' as <- <- <-.
  all: match goal with H : call _ _ _ = _ |- _ => by rewrite H end.
Qed.

(** What one run of the loop does, whatever the client answers: it reads
    and uploads the chunks of the stream in order, numbering them from
    [idx], each with declared length [CHUNK_SIZE]; either every upload
    returns a tag, the final read is empty and the result is [parts]
    extended by one entry per chunk, or the first upload that raises is the
    last call and its exception is the result. *)
Lemma put_loop_run f parts idx (w : World St) :
  exists sent etags tail,
    let run := BackupS3Service.put_loop s3 client Bucket Key UploadId f parts idx w in
    length etags = length sent
    /\ trace (snd run) =
         trace w ++ part_events Bucket Key UploadId idx sent etags ++ tail
    /\ tasks_cloudsync (snd run) = tasks_cloudsync w
    /\ system_cloudcredentials (snd run) = system_cloudcredentials w
    /\ ((fst run = Ok (parts ++ new_parts idx etags)
         /\ sent = chunks f /\ tail = [EvFdRead CHUNK_SIZE []])
        \/ (exists e c rest,
              fst run = Raise e /\ chunks f = sent ++ c :: rest
              /\ tail = [EvFdRead CHUNK_SIZE c;
                         EvUploadPart Bucket Key (idx + Z.of_nat (length sent))
                           UploadId CHUNK_SIZE c (Raise e)])).
Proof.
  revert parts idx w.
  induction f as [f IH] using (induction_ltof1 _ (@length byte)).
  intros parts idx w.
  destruct (read_cases f) as [[-> Hr]|(b & c & f' & Hr & Hf & _)].
  - exists [], [], [EvFdRead CHUNK_SIZE []]. simpl.
    rewrite (put_loop_eof _ _ _ _ _ Hr). simpl.
    rewrite app_nil_r, chunks_nil. repeat split. by left.
  - rewrite (chunks_cons _ _ _ _ Hr).
    cbv zeta. rewrite (put_loop_chunk _ _ _ _ _ _ _ Hr).
    destruct (call _ _ _) as [[etag|e] w1] eqn:Hcall;
      apply call_inv in Hcall as (s1 & _ & ->).
    + assert (ltof _ (@length byte) f' f) as Hlt.
      { unfold ltof. subst f. rewrite length_app. simpl. lia. }
      destruct (IH f' Hlt (parts ++ [{| ETag := etag; PartNumber := idx |}])
                  (idx + 1) (log (EvUploadPart Bucket Key idx UploadId CHUNK_SIZE (b :: c) (Ok etag))
                     (set_ext s1 (log (EvFdRead CHUNK_SIZE (b :: c)) w))))
        as (sent & etags & tail & Hlen & Htr & Ht & Hc & Hres).
      cbv zeta in *.
      exists ((b :: c) :: sent), (etag :: etags), tail.
      split; [simpl; by rewrite Hlen|].
      split; [rewrite Htr; simpl; by rewrite <- !app_assoc|].
      split; [by rewrite Ht|]. split; [by rewrite Hc|].
      destruct Hres as [(Hok & -> & ->)|(e & c' & rest & Hr' & Hch & ->)].
      * left. rewrite Hok. simpl. by rewrite <- app_assoc.
      * right. exists e, c', rest. rewrite Hr', Hch. repeat split.
        simpl length. by rewrite Nat2Z.inj_succ, <- Z.add_1_l, Z.add_assoc.
    + exists [], [], [EvFdRead CHUNK_SIZE (b :: c);
                      EvUploadPart Bucket Key idx UploadId CHUNK_SIZE (b :: c) (Raise e)].
      simpl. rewrite <- app_assoc. repeat split.
      right. exists e, (b :: c), (chunks f'). by rewrite Z.add_0_r.
Qed.
End PutLoop.

(** ** Reading the calls of the loop off a trace *)

Section PartEvents.
Context (Bucket Key UploadId : string).

Lemma uploads_part_events_numbers idx cs etags :
  length etags = length cs ->
  call_PartNumber <$> uploads (part_events Bucket Key UploadId idx cs etags) =
    seqZ idx (Z.of_nat (length cs)).
Proof.
  revert idx etags. induction cs as [|c cs IH]; intros idx [|etag etags] Hlen;
    try discriminate; [done|].
  simpl length. rewrite seqZ_cons by lia. simpl. f_equal.
  rewrite <- Z.add_1_r. replace (Z.pred (Z.of_nat (S (length cs))))
    with (Z.of_nat (length cs)) by lia.
  apply IH. by injection Hlen.
Qed.

Lemma uploads_part_events_bodies idx cs etags :
  length etags = length cs ->
  call_Body <$> uploads (part_events Bucket Key UploadId idx cs etags) = cs.
Proof.
  revert idx etags. induction cs as [|c cs IH]; intros idx [|etag etags] Hlen;
    try discriminate; [done|].
  simpl. f_equal. apply IH. by injection Hlen.
Qed.

Lemma uploads_part_events_declared idx cs etags :
  Forall (fun u => call_ContentLength u = CHUNK_SIZE /\
                   exists etag, call_result u = Ok etag)
         (uploads (part_events Bucket Key UploadId idx cs etags)).
Proof.
  revert idx etags. induction cs as [|c cs IH]; intros idx [|etag etags];
    try constructor; [|apply IH].
  simpl. eauto.
Qed.

Lemma completes_part_events idx cs etags :
  completes (part_events Bucket Key UploadId idx cs etags) = [].
Proof.
  revert idx etags. induction cs as [|c cs IH]; intros idx [|etag etags];
    try done.
  simpl. apply IH.
Qed.
End PartEvents.

Lemma new_parts_numbers idx etags :
  PartNumber <$> new_parts idx etags = seqZ idx (Z.of_nat (length etags)).
Proof.
  revert idx. induction etags as [|etag etags IH]; intros idx; [done|].
  simpl length. rewrite seqZ_cons by lia. simpl. f_equal.
  rewrite <- Z.add_1_r. replace (Z.pred (Z.of_nat (S (length etags))))
    with (Z.of_nat (length etags)) by lia.
  apply IH.
Qed.

(** ** put as a whole *)

Section PutRun.
Context {St : Type} (s3 : S3 St).

Lemma get_client_run id (w : World St) :
  BackupS3Service.get_client id w =
    (match system_cloudcredentials w !! id with
     | Some credential => Ok (client_of credential)
     | None => Raise (TypeError "'NoneType' object is not subscriptable")
     end, log (EvQuery "system.cloudcredentials" id) w).
Proof.
  unfold BackupS3Service.get_client, bind, query_system_cloudcredentials.
  by destruct (system_cloudcredentials w !! id).
Qed.

(** Every run of [put]: it stops at the credential lookup or at the
    creation of the session when these raise; otherwise it runs the loop
    and then either completes the session with the parts in the order
    they were uploaded, or stops at the upload that raised. *)
Lemma put_run backup filename read_fd (w : World St) :
  let run := BackupS3Service.put s3 backup filename read_fd w in
  let Bucket := bucket (task_attributes backup) in
  let Key := key_of backup filename in
  let lookup := EvQuery "system.cloudcredentials" (task_id backup) in
  (system_cloudcredentials w !! task_id backup = None
   /\ trace (snd run) = trace w ++ [lookup]
   /\ exists e, fst run = Raise e)
  \/ (exists e, trace (snd run) =
        trace w ++ [lookup; EvCreateMultipartUpload Bucket Key (Raise e)]
      /\ fst run = Raise e)
  \/ (exists mp sent etags,
        length etags = length sent
        /\ ((sent = chunks read_fd
             /\ trace (snd run) =
                  trace w ++ [lookup; EvCreateMultipartUpload Bucket Key (Ok mp)]
                  ++ part_events Bucket Key mp 1 sent etags
                  ++ [EvFdRead CHUNK_SIZE [];
                      EvCompleteMultipartUpload Bucket Key mp
                        (new_parts 1 etags) (fst run)])
            \/ (exists e c rest,
                  fst run = Raise e /\ chunks read_fd = sent ++ c :: rest
                  /\ trace (snd run) =
                       trace w ++ [lookup; EvCreateMultipartUpload Bucket Key (Ok mp)]
                       ++ part_events Bucket Key mp 1 sent etags
                       ++ [EvFdRead CHUNK_SIZE c;
                           EvUploadPart Bucket Key (1 + Z.of_nat (length sent))
                             mp CHUNK_SIZE c (Raise e)]))).
Proof.
  cbv zeta. unfold BackupS3Service.put, bind. rewrite get_client_run.
  fold (key_of backup filename).
  destruct (system_cloudcredentials w !! task_id backup) as [credential|] eqn:Hc.
  2:{ left. simpl. eauto. }
  right.
  destruct (call _ _ _) as [[mp|e] w1] eqn:Hcall;
    apply call_inv in Hcall as (s1 & _ & ->).
  2:{ left. exists e. simpl. by rewrite <- app_assoc. }
  right. exists mp.
  match goal with
  | |- context [BackupS3Service.put_loop s3 ?c ?B ?K ?U ?f ?p ?i ?w0] =>
      destruct (put_loop_run s3 c B K U f p i w0)
        as (sent & etags & tail & Hlen & Htr & _ & _ & Hres);
      cbv zeta in Htr, Hres;
      destruct (BackupS3Service.put_loop s3 c B K U f p i w0) as [r w2]
  end.
  simpl in Htr, Hres. exists sent, etags. split; [done|].
  destruct Hres as [(-> & -> & ->)|(e & c & rest & -> & Hch & ->)].
  - left. split; [done|].
    destruct (call _ _ _) as [rc w3] eqn:Hcall.
    apply call_inv in Hcall as (s3' & _ & ->). simpl.
    rewrite Htr. simpl. by rewrite <- !app_assoc.
  - right. exists e, c, rest. simpl. split; [done|]. split; [done|].
    rewrite Htr. simpl. by rewrite <- !app_assoc.
Qed.
End PutRun.

Lemma uploads_app t1 t2 : uploads (t1 ++ t2) = uploads t1 ++ uploads t2.
Proof. apply omap_app. Qed.

Lemma completes_app t1 t2 : completes (t1 ++ t2) = completes t1 ++ completes t2.
Proof. apply omap_app. Qed.

Lemma uploads_cons e t :
  uploads (e :: t) =
    match upload_of e with Some u => u :: uploads t | None => uploads t end.
Proof. reflexivity. Qed.

Lemma completes_cons e t :
  completes (e :: t) =
    match complete_of e with Some p => p :: completes t | None => completes t end.
Proof. reflexivity. Qed.

Lemma uploads_nil : uploads [] = [].
Proof. reflexivity. Qed.

Lemma completes_nil : completes [] = [].
Proof. reflexivity. Qed.

(** Computes [uploads] and [completes] on a trace given by conses and
    appends. *)
Ltac read_trace :=
  repeat (rewrite ?uploads_app, ?completes_app, ?uploads_cons, ?completes_cons,
            ?uploads_nil, ?completes_nil, ?completes_part_events;
          cbn [upload_of complete_of]);
  rewrite ?app_nil_r, ?app_nil_l.

Lemma paired_part_events Bucket Key UploadId idx cs etags :
  length etags = length cs ->
  Forall2 (fun u p => call_result u = Ok (ETag p)
                      /\ call_PartNumber u = PartNumber p)
          (uploads (part_events Bucket Key UploadId idx cs etags))
          (new_parts idx etags).
Proof.
  revert idx etags. induction cs as [|c cs IH]; intros idx [|etag etags] Hlen;
    try discriminate; [constructor|].
  simpl. constructor; [done|]. apply IH. by injection Hlen.
Qed.

Lemma chunks_bounds f :
  Forall (fun c => 0 < Z.of_nat (length c) <= CHUNK_SIZE) (chunks f).
Proof.
  apply (chunks_ind (fun _ cs =>
    Forall (fun c => 0 < Z.of_nat (length c) <= CHUNK_SIZE) cs)); [constructor|].
  intros b c f' _ Hlen IH. constructor; [|done]. simpl length in *. lia.
Qed.

(** C1: when [put] returns, the loop has uploaded as many parts as the
    length of the stream divided by 5 MiB, rounded up; all bodies but the
    last are 5 MiB long and the last holds the remainder (5 MiB when there
    is none); the bodies are the stream cut in order; the part numbers of
    the calls are 1, 2, ..., n; and the one completion call lists one entry
    per upload, in the same order, with that upload's number and the tag it
    returned. *)
Theorem put_parts {St} (s3 : S3 St) backup filename read_fd (w w' : World St) :
  BackupS3Service.put s3 backup filename read_fd w = (Ok tt, w') ->
  let L := Z.of_nat (length read_fd) in
  let n := (L + CHUNK_SIZE - 1) / CHUNK_SIZE in
  CHUNK_SIZE = 5 * 1024 * 1024
  /\ exists t Parts,
       trace w' = trace w ++ t
       /\ Z.of_nat (length (uploads t)) = n
       /\ (forall init last,
             call_Body <$> uploads t = init ++ [last] ->
             Forall (fun body => Z.of_nat (length body) = CHUNK_SIZE) init
             /\ Z.of_nat (length last) =
                  if L mod CHUNK_SIZE =? 0 then CHUNK_SIZE else L mod CHUNK_SIZE)
       /\ concat (call_Body <$> uploads t) = read_fd
       /\ call_PartNumber <$> uploads t = seqZ 1 n
       /\ completes t = [Parts]
       /\ PartNumber <$> Parts = seqZ 1 n
       /\ Forall2 (fun u p => call_result u = Ok (ETag p)
                              /\ call_PartNumber u = PartNumber p)
                  (uploads t) Parts.
Proof.
  intros Hput. cbv zeta. split; [reflexivity|].
  pose proof (put_run s3 backup filename read_fd w) as Hrun.
  cbv zeta in Hrun. rewrite Hput in Hrun. simpl in Hrun.
  destruct Hrun as [(_ & _ & e & He)|[(e & _ & He)|Hrun]]; try discriminate He.
  destruct Hrun as (mp & sent & etags & Hlen & [(-> & Htr)|(e & ? & ? & He & _)]);
    [|discriminate He].
  eexists _, (new_parts 1 etags). split; [exact Htr|].
  read_trace.
  pose proof (uploads_part_events_bodies (bucket (task_attributes backup))
                (key_of backup filename) mp 1 _ _ Hlen) as Hbodies.
  pose proof (uploads_part_events_numbers (bucket (task_attributes backup))
                (key_of backup filename) mp 1 _ _ Hlen) as Hnum.
  rewrite chunks_count in Hnum.
  assert (Z.of_nat (length (uploads (part_events (bucket (task_attributes backup))
            (key_of backup filename) mp 1 (chunks read_fd) etags))) =
          (Z.of_nat (length read_fd) + CHUNK_SIZE - 1) / CHUNK_SIZE) as Hcount.
  { transitivity (Z.of_nat (length (call_Body <$> uploads (part_events
        (bucket (task_attributes backup)) (key_of backup filename) mp 1
        (chunks read_fd) etags)))); [by rewrite length_fmap|].
    rewrite Hbodies. apply chunks_count. }
  split; [done|]. split.
  { intros init last. rewrite Hbodies. apply chunks_sizes. }
  split; [by rewrite Hbodies, chunks_concat|].
  split; [done|]. split; [done|]. split.
  - by rewrite new_parts_numbers, Hlen, chunks_count.
  - by apply paired_part_events.
Qed.

(** C5: when some [upload_part] call of a [put] raises, [put] raises the
    same exception, that call is the last call of the run, so that no part
    is uploaded after it and the session is neither completed nor aborted,
    and every upload before it had returned. *)
Theorem put_upload_failure {St} (s3 : S3 St) backup filename read_fd
    (w : World St) t u e :
  let run := BackupS3Service.put s3 backup filename read_fd w in
  trace (snd run) = trace w ++ t ->
  u ∈ uploads t ->
  call_result u = Raise e ->
  fst run = Raise e
  /\ completes t = []
  /\ (exists t0 ev, t = t0 ++ [ev] /\ upload_of ev = Some u)
  /\ (exists before,
        uploads t = before ++ [u]
        /\ Forall (fun u' => exists etag, call_result u' = Ok etag) before).
Proof.
  cbv zeta. intros Htr Hin Hres.
  pose proof (put_run s3 backup filename read_fd w) as Hrun.
  cbv zeta in Hrun.
  destruct Hrun as [(_ & Htr' & _)|[(e' & Htr' & _)|Hrun]].
  1,2: rewrite Htr in Htr'; apply app_inv_head in Htr'; subst t;
       by apply elem_of_nil in Hin.
  destruct Hrun as (mp & sent & etags & Hlen & [(_ & Htr')|Hfail]).
  - rewrite Htr in Htr'. apply app_inv_head in Htr'. subst t.
    revert Hin. read_trace. intros Hin.
    pose proof (uploads_part_events_declared (bucket (task_attributes backup))
                  (key_of backup filename) mp 1 sent etags) as Hok.
    rewrite Forall_forall in Hok. destruct (Hok u Hin) as (_ & etag & Hu).
    congruence.
  - destruct Hfail as (e' & c & rest & Hfst & _ & Htr').
    rewrite Htr in Htr'. apply app_inv_head in Htr'. subst t.
    pose proof (uploads_part_events_declared (bucket (task_attributes backup))
                  (key_of backup filename) mp 1 sent etags) as Hok.
    revert Hin. read_trace. intros Hin.
    apply elem_of_app in Hin as [Hin|Hin].
    { rewrite Forall_forall in Hok. destruct (Hok u Hin) as (_ & etag & Hu).
      congruence. }
    apply list_elem_of_singleton in Hin. subst u. simpl in Hres.
    injection Hres as ->.
    split; [done|]. split.
    { by read_trace. }
    split.
    + eexists (_ :: _ :: part_events _ _ _ _ _ _ ++ [_]), _. split.
      * simpl. rewrite <- app_assoc. reflexivity.
      * reflexivity.
    + exists (uploads (part_events (bucket (task_attributes backup))
                         (key_of backup filename) mp 1 sent etags)).
      read_trace. split; [reflexivity|].
      eapply Forall_impl; [exact Hok|]. by intros ? [_ ?].
Qed.

(** C9: every [upload_part] call of [put] declares a content length of
    [CHUNK_SIZE], 5 MiB, whatever the length of its body, which is between
    one byte and 5 MiB; when the length of the stream is not a multiple of
    5 MiB and [put] returns, the last call carries the remainder as its
    body, fewer bytes than it declares. *)
Theorem put_declared_length {St} (s3 : S3 St) backup filename read_fd
    (w : World St) t :
  let run := BackupS3Service.put s3 backup filename read_fd w in
  let L := Z.of_nat (length read_fd) in
  trace (snd run) = trace w ++ t ->
  CHUNK_SIZE = 5 * 1024 * 1024
  /\ Forall (fun u => call_ContentLength u = CHUNK_SIZE
                      /\ 0 < Z.of_nat (length (call_Body u)) <= CHUNK_SIZE)
            (uploads t)
  /\ (fst run = Ok tt -> L mod CHUNK_SIZE <> 0 ->
      exists u, last (uploads t) = Some u
                /\ Z.of_nat (length (call_Body u)) = L mod CHUNK_SIZE
                /\ Z.of_nat (length (call_Body u)) < call_ContentLength u).
Proof.
  cbv zeta. intros Htr. split; [reflexivity|].
  pose proof CHUNK_SIZE_pos as Hpos.
  pose proof (chunks_bounds read_fd) as Hbounds.
  assert (forall mp sent etags,
            length etags = length sent ->
            Forall (fun c => 0 < Z.of_nat (length c) <= CHUNK_SIZE) sent ->
            Forall (fun u => call_ContentLength u = CHUNK_SIZE /\
                             0 < Z.of_nat (length (call_Body u)) <= CHUNK_SIZE)
                   (uploads (part_events (bucket (task_attributes backup))
                               (key_of backup filename) mp 1 sent etags)))
    as Hsent.
  { intros mp sent etags Hlen Hb.
    pose proof (uploads_part_events_declared (bucket (task_attributes backup))
                  (key_of backup filename) mp 1 sent etags) as Hdecl.
    rewrite <- (uploads_part_events_bodies (bucket (task_attributes backup))
                  (key_of backup filename) mp 1 sent etags Hlen) in Hb.
    rewrite Forall_fmap in Hb.
    eapply Forall_impl; [apply Forall_and; split; [exact Hdecl|exact Hb]|].
    simpl. intros u [[? _] ?]. done. }
  pose proof (put_run s3 backup filename read_fd w) as Hrun.
  cbv zeta in Hrun.
  destruct Hrun as [(_ & Htr' & e & He)|[(e & Htr' & He)|Hrun]].
  1,2: rewrite Htr in Htr'; apply app_inv_head in Htr'; subst t;
       split; [constructor|]; rewrite He; discriminate.
  destruct Hrun as (mp & sent & etags & Hlen & [(-> & Htr')|Hfail]).
  - rewrite Htr in Htr'. apply app_inv_head in Htr'. subst t.
    read_trace. split; [by apply Hsent|].
    intros _ Hmod.
    destruct (chunks read_fd) as [|c0 cs0] eqn:Hch using rev_ind.
    { pose proof (chunks_concat read_fd) as Hc. rewrite Hch in Hc.
      subst read_fd. simpl in Hmod. by rewrite Z.mod_0_l in Hmod by lia. }
    destruct (chunks_sizes read_fd _ _ Hch) as [_ Hlast].
    destruct (Z.eqb_spec (Z.of_nat (length read_fd) mod CHUNK_SIZE) 0)
      as [|_]; [done|].
    pose proof (uploads_part_events_bodies (bucket (task_attributes backup))
                  (key_of backup filename) mp 1 _ _ Hlen) as Hbodies.
    apply (f_equal last) in Hbodies. rewrite fmap_last, last_snoc in Hbodies.
    apply fmap_Some in Hbodies as (u & Hu & ->).
    exists u. split; [done|]. split; [done|].
    specialize (Hsent mp _ etags Hlen Hbounds).
    rewrite Forall_forall in Hsent.
    destruct (Hsent u (last_Some_elem_of _ _ Hu)) as [-> _].
    rewrite Hlast. by apply Z.mod_pos_bound.
  - destruct Hfail as (e & c & rest & He & Hch & Htr').
    rewrite Htr in Htr'. apply app_inv_head in Htr'. subst t.
    rewrite Hch in Hbounds. apply Forall_app in Hbounds as [Hb1 Hb2].
    inversion Hb2; subst.
    read_trace. split; [|rewrite He; discriminate].
    apply Forall_app. split; [by apply Hsent|].
    constructor; [by split|constructor].
Qed.

(** C10: on an empty stream, once the credential is found and the session
    is created, [put] makes exactly these calls, in this order: the
    credential lookup, [create_multipart_upload], the read that returns no
    byte, and [complete_multipart_upload] with an empty part list; so the
    session is created before the first read, no part is uploaded, and
    creation and completion are each called once.  [put] returns what the
    completion returns. *)
Theorem put_empty_stream {St} (s3 : S3 St) backup filename (w : World St)
    credential mp s1 :
  let run := BackupS3Service.put s3 backup filename [] w in
  let Bucket := bucket (task_attributes backup) in
  let Key := key_of backup filename in
  system_cloudcredentials w !! task_id backup = Some credential ->
  create_multipart_upload s3 (client_of credential) Bucket Key (ext w) = (Ok mp, s1) ->
  exists t,
    trace (snd run) = trace w ++ t
    /\ t = [EvQuery "system.cloudcredentials" (task_id backup);
            EvCreateMultipartUpload Bucket Key (Ok mp);
            EvFdRead CHUNK_SIZE [];
            EvCompleteMultipartUpload Bucket Key mp [] (fst run)]
    /\ uploads t = []
    /\ completes t = [[]]
    /\ length (filter (fun e => is_create e = true) t) = 1%nat
    /\ fst run =
         fst (complete_multipart_upload s3 (client_of credential) Bucket Key mp [] s1).
Proof.
  cbv zeta. intros Hc Hcreate.
  destruct (complete_multipart_upload s3 (client_of credential)
              (bucket (task_attributes backup)) (key_of backup filename) mp [] s1)
    as [rc s2] eqn:Hcomplete.
  assert (BackupS3Service.put s3 backup filename [] w =
          (rc, log (EvCompleteMultipartUpload (bucket (task_attributes backup))
                      (key_of backup filename) mp [] rc)
                 (set_ext s2
                    (log (EvFdRead CHUNK_SIZE [])
                       (log (EvCreateMultipartUpload (bucket (task_attributes backup))
                               (key_of backup filename) (Ok mp))
                          (set_ext s1
                             (log (EvQuery "system.cloudcredentials" (task_id backup))
                                w))))))) as ->.
  { unfold BackupS3Service.put, bind. rewrite get_client_run, Hc.
    fold (key_of backup filename).
    rewrite (call_eq _ _ (log _ w) (Ok mp) s1 Hcreate).
    rewrite (put_loop_eof s3 _ _ _ _ [] [] [] 1 _ eq_refl).
    by rewrite (call_eq _ _ (log _ (log _ (set_ext s1 (log _ w)))) rc s2 Hcomplete). }
  eexists. split; [|split; [reflexivity|]].
  - simpl. by rewrite <- !app_assoc.
  - done.
Qed.

(** ** The download loop *)

Lemma DEFAULT_BUFFER_SIZE_lt_CHUNK_SIZE :
  0 < BackupS3Service.DEFAULT_BUFFER_SIZE < CHUNK_SIZE.
Proof. split; reflexivity. Qed.

Lemma written_app t1 t2 : written (t1 ++ t2) = written t1 ++ written t2.
Proof. unfold written. by rewrite fmap_app, concat_app. Qed.

Section GetLoop.
Context {St : Type}.

Lemma get_loop_eof body r pending (w : World St) :
  read CHUNK_SIZE body = ([], r) ->
  BackupS3Service.get_loop body pending w = (Ok pending, w).
Proof.
  funelim (BackupS3Service.get_loop body pending w); intros;
    [reflexivity|congruence].
Qed.

Lemma get_loop_chunk body b c body' pending (w : World St) :
  read CHUNK_SIZE body = (b :: c, body') ->
  BackupS3Service.get_loop body pending w =
    BackupS3Service.get_loop body'
      (fst (BackupS3Service.fg_write pending (b :: c) w))
      (snd (BackupS3Service.fg_write pending (b :: c) w)).
Proof.
  funelim (BackupS3Service.get_loop body pending w); intros Hr';
    [congruence|].
  rewrite Hr in Hr'. injection Hr' as <- <- <-.
  match goal with H : BackupS3Service.fg_write _ _ _ = _ |- _ => by rewrite H end.
Qed.

(** One [fg.write]: what goes to the descriptor and what stays in the
    buffer are, together, what the buffer held and the data. *)
Lemma fg_write_run pending data (w : World St) :
  exists t,
    trace (snd (BackupS3Service.fg_write pending data w)) = trace w ++ t
    /\ Forall (fun e => exists d, e = EvFdWrite d) t
    /\ written t ++ fst (BackupS3Service.fg_write pending data w) =
         pending ++ data
    /\ ext (snd (BackupS3Service.fg_write pending data w)) = ext w.
Proof.
  unfold BackupS3Service.fg_write.
  destruct (_ <=? _).
  { exists []. simpl. by rewrite app_nil_r. }
  destruct pending as [|p pending];
    destruct (BackupS3Service.DEFAULT_BUFFER_SIZE <? _); cbn [fst snd].
  - exists [EvFdWrite data]. repeat split; [by repeat econstructor|].
    unfold written. simpl. by rewrite !app_nil_r.
  - exists []. simpl. rewrite app_nil_r. by repeat split.
  - exists [EvFdWrite (p :: pending); EvFdWrite data]. simpl.
    rewrite <- app_assoc. repeat split; [by repeat econstructor|].
    unfold written. simpl. by rewrite !app_nil_r.
  - exists [EvFdWrite (p :: pending)]. repeat split; [by repeat econstructor|].
    unfold written. simpl. by rewrite !app_nil_r.
Qed.

(** The loop of [get] returns; the bytes it wrote to the descriptor
    followed by those left in the buffer are the buffer's first content
    followed by the body. *)
Lemma get_loop_run body pending (w : World St) :
  exists pending' w' t,
    BackupS3Service.get_loop body pending w = (Ok pending', w')
    /\ trace w' = trace w ++ t
    /\ Forall (fun e => exists d, e = EvFdWrite d) t
    /\ written t ++ pending' = pending ++ body
    /\ ext w' = ext w.
Proof.
  revert pending w.
  induction body as [body IH] using (induction_ltof1 _ (@length byte)).
  intros pending w.
  destruct (read_cases body) as [[-> Hr]|(b & c & body' & Hr & Hb & _)].
  - exists pending, w, []. rewrite (get_loop_eof _ _ _ _ Hr).
    rewrite !app_nil_r. repeat split. constructor.
  - rewrite (get_loop_chunk _ _ _ _ _ _ Hr).
    destruct (fg_write_run pending (b :: c) w) as (t1 & Htr1 & Hall1 & Hw1 & Hext1).
    destruct (IH body') with
      (pending := fst (BackupS3Service.fg_write pending (b :: c) w))
      (w := snd (BackupS3Service.fg_write pending (b :: c) w))
      as (pending' & w' & t2 & Hrun & Htr2 & Hall2 & Hw2 & Hext2).
    { unfold ltof. subst body. rewrite length_app. simpl. lia. }
    exists pending', w', (t1 ++ t2). split; [exact Hrun|].
    split; [by rewrite Htr2, Htr1, <- app_assoc|].
    split; [by apply Forall_app|]. split.
    + rewrite written_app, <- app_assoc, Hw2, app_assoc, Hw1. subst body.
      by rewrite <- app_assoc.
    + by rewrite Hext2.
Qed.

Lemma fg_write_empty_small data (w : World St) :
  Z.of_nat (length data) <= BackupS3Service.DEFAULT_BUFFER_SIZE ->
  BackupS3Service.fg_write [] data w = (data, w).
Proof.
  intros H. unfold BackupS3Service.fg_write.
  change (Z.of_nat (length (@nil byte))) with 0. rewrite Z.add_0_l.
  by destruct (Z.leb_spec (Z.of_nat (length data))
                 BackupS3Service.DEFAULT_BUFFER_SIZE); [|lia].
Qed.

Lemma fg_write_empty_big data (w : World St) :
  BackupS3Service.DEFAULT_BUFFER_SIZE < Z.of_nat (length data) ->
  BackupS3Service.fg_write [] data w = ([], log (EvFdWrite data) w).
Proof.
  intros H. unfold BackupS3Service.fg_write.
  change (Z.of_nat (length (@nil byte))) with 0. rewrite Z.add_0_l.
  destruct (Z.leb_spec (Z.of_nat (length data))
              BackupS3Service.DEFAULT_BUFFER_SIZE); [lia|].
  by destruct (Z.ltb_spec BackupS3Service.DEFAULT_BUFFER_SIZE
                 (Z.of_nat (length data))); [|lia].
Qed.

(** Starting with an empty buffer: every chunk but the last is longer
    than the buffer and goes to the descriptor, and the last one stays in
    the buffer when it is not longer than the buffer. *)
Lemma get_loop_unflushed body (w : World St) :
  exists pending' w' t,
    BackupS3Service.get_loop body [] w = (Ok pending', w')
    /\ trace w' = trace w ++ t
    /\ Forall (fun e => exists d, e = EvFdWrite d) t
    /\ ext w' = ext w
    /\ written t ++ pending' = body
    /\ Z.of_nat (length pending') =
         if Z.of_nat (length body) mod CHUNK_SIZE
            <=? BackupS3Service.DEFAULT_BUFFER_SIZE
         then Z.of_nat (length body) mod CHUNK_SIZE else 0.
Proof.
  pose proof DEFAULT_BUFFER_SIZE_lt_CHUNK_SIZE as [Hbuf0 Hbuf].
  revert w.
  induction body as [body IH] using (induction_ltof1 _ (@length byte)).
  intros w.
  destruct (read_cases body) as [[-> Hr]|(b & c & body' & Hr & Hb & Hlen)].
  - exists [], w, []. rewrite (get_loop_eof _ _ _ _ Hr). simpl.
    rewrite app_nil_r. repeat split. constructor.
  - rewrite (get_loop_chunk _ _ _ _ _ _ Hr).
    assert (0 < Z.of_nat (length (b :: c))) as Hpos by (simpl; lia).
    set (ch := b :: c) in *. clearbody ch. subst body.
    rewrite length_app, Nat2Z.inj_add in *.
    destruct (Z.le_gt_cases (Z.of_nat (length ch))
                BackupS3Service.DEFAULT_BUFFER_SIZE) as [Hsmall|Hbig].
    + assert (Z.of_nat (length body') = 0) as Hnil by lia.
      assert (body' = []) as -> by (destruct body'; [done|simpl in Hnil; lia]).
      rewrite (fg_write_empty_small _ _ Hsmall). cbn [fst snd].
      exists ch, w, []. rewrite (get_loop_eof [] [] _ _ eq_refl).
      rewrite !app_nil_r. simpl length. rewrite Z.add_0_r, Z.mod_small by lia.
      repeat split; [constructor|].
      by destruct (Z.leb_spec (Z.of_nat (length ch))
                     BackupS3Service.DEFAULT_BUFFER_SIZE); [|lia].
    + rewrite (fg_write_empty_big _ _ Hbig). cbn [fst snd].
      destruct (IH body') with (w := log (EvFdWrite ch) w)
        as (pending' & w' & t & Hrun & Htr & Hall & Hext & Hw & Hp).
      { unfold ltof. rewrite length_app. lia. }
      exists pending', w', (EvFdWrite ch :: t). split; [exact Hrun|].
      split; [rewrite Htr; simpl; by rewrite <- app_assoc|].
      split; [constructor; [by eexists|exact Hall]|].
      split; [exact Hext|].
      split.
      { change (EvFdWrite ch :: t) with ([EvFdWrite ch] ++ t).
        rewrite written_app, <- app_assoc, Hw. unfold written. simpl.
        by rewrite app_nil_r. }
      rewrite Hp.
      destruct (Z.eq_dec (Z.of_nat (length ch)) CHUNK_SIZE) as [Hfull|Hshort].
      * rewrite Hfull.
        replace (CHUNK_SIZE + Z.of_nat (length body'))
          with (Z.of_nat (length body') + 1 * CHUNK_SIZE) by lia.
        by rewrite Z.mod_add by lia.
      * assert (Z.of_nat (length body') = 0) as -> by lia.
        rewrite Z.add_0_r, Z.mod_0_l, (Z.mod_small (Z.of_nat (length ch))) by lia.
        destruct (Z.leb_spec 0 BackupS3Service.DEFAULT_BUFFER_SIZE); [|lia].
        by destruct (Z.leb_spec (Z.of_nat (length ch))
                    BackupS3Service.DEFAULT_BUFFER_SIZE); [lia|].
Qed.
End GetLoop.

(** ** put, then get, against the reference object store *)

Section RoundTrip.
Context (etag_of : bytes -> string).

Lemma assemble_snoc stored parts acc etag idx body :
  ObjectStore.assemble stored parts = Some acc ->
  stored !! idx = Some (etag, body) ->
  ObjectStore.assemble stored (parts ++ [{| ETag := etag; PartNumber := idx |}]) =
    Some (acc ++ body).
Proof.
  revert acc. induction parts as [|p parts IH]; intros acc; simpl.
  - intros [= <-] ->. by rewrite String.eqb_refl, app_nil_r.
  - destruct (stored !! PartNumber p) as [[etag' body']|]; [|done].
    destruct (String.eqb etag' (ETag p)); [|done].
    destruct (ObjectStore.assemble stored parts) as [rest|]; [|done].
    intros [= <-] Hidx. rewrite (IH rest eq_refl Hidx).
    by rewrite <- app_assoc.
Qed.

Lemma assemble_insert_above stored parts idx v acc :
  Forall (fun p => PartNumber p < idx) parts ->
  ObjectStore.assemble stored parts = Some acc ->
  ObjectStore.assemble (<[idx := v]> stored) parts = Some acc.
Proof.
  revert acc. induction parts as [|p parts IH]; intros acc Hlt; [done|].
  inversion Hlt as [|? ? Hp Hparts]; subst. simpl.
  rewrite lookup_insert_ne by lia.
  destruct (stored !! PartNumber p) as [[etag' body']|]; [|done].
  destruct (String.eqb etag' (ETag p)); [|done].
  destruct (ObjectStore.assemble stored parts) as [rest|] eqn:E; [|done].
  intros [= <-]. by rewrite (IH rest Hparts eq_refl).
Qed.

Lemma contiguous_new_parts idx etags :
  ObjectStore.contiguous_from idx (new_parts idx etags) = true.
Proof.
  revert idx. induction etags as [|etag etags IH]; intros idx; [done|].
  simpl. by rewrite Z.eqb_refl, IH.
Qed.

Lemma session_upload client Bucket Key UploadId idx len body s u :
  ObjectStore.session Bucket Key UploadId s = Some u ->
  exists s',
    ObjectStore.upload etag_of client Bucket Key idx UploadId len body s =
      (Ok (etag_of body), s')
    /\ ObjectStore.session Bucket Key UploadId s' =
         Some {| ObjectStore.up_bucket := Bucket; ObjectStore.up_key := Key;
                 ObjectStore.up_parts :=
                   <[idx := (etag_of body, body)]> (ObjectStore.up_parts u) |}
    /\ ObjectStore.objects s' = ObjectStore.objects s.
Proof.
  intros Hs. unfold ObjectStore.upload. rewrite Hs.
  eexists. split; [reflexivity|]. split; [|reflexivity].
  unfold ObjectStore.session. simpl. rewrite lookup_insert_eq. simpl.
  by rewrite !String.eqb_refl.
Qed.

(** The loop against the reference store: every upload is accepted, and at
    the end the session holds, under the numbers and tags recorded in
    [parts], bodies that assemble to the whole stream. *)
Lemma store_put_loop client Bucket Key UploadId f parts idx
    (w : World ObjectStore.Store) u acc :
  ObjectStore.session Bucket Key UploadId (ext w) = Some u ->
  ObjectStore.assemble (ObjectStore.up_parts u) parts = Some acc ->
  Forall (fun p => PartNumber p < idx) parts ->
  exists etags w' u',
    BackupS3Service.put_loop (ObjectStore.s3 etag_of) client Bucket Key UploadId
      f parts idx w = (Ok (parts ++ new_parts idx etags), w')
    /\ ObjectStore.session Bucket Key UploadId (ext w') = Some u'
    /\ ObjectStore.assemble (ObjectStore.up_parts u') (parts ++ new_parts idx etags) =
         Some (acc ++ f)
    /\ ObjectStore.objects (ext w') = ObjectStore.objects (ext w)
    /\ system_cloudcredentials w' = system_cloudcredentials w.
Proof.
  revert parts idx w u acc.
  induction f as [f IH] using (induction_ltof1 _ (@length byte)).
  intros parts idx w u acc Hs Hasm Hlt.
  destruct (read_cases f) as [[-> Hr]|(b & c & f' & Hr & Hf & _)].
  - exists [], (log (EvFdRead CHUNK_SIZE []) w), u.
    rewrite (put_loop_eof _ _ _ _ _ _ _ _ _ _ Hr). simpl.
    by rewrite !app_nil_r.
  - rewrite (put_loop_chunk _ _ _ _ _ _ _ _ _ _ _ _ Hr).
    destruct (session_upload client Bucket Key UploadId idx CHUNK_SIZE (b :: c)
                (ext w) u Hs) as (s' & Hup & Hs' & Hobj).
    rewrite (call_eq _ _ (log _ w) _ _ Hup).
    destruct (IH f') with
      (parts := parts ++ [{| ETag := etag_of (b :: c); PartNumber := idx |}])
      (idx := idx + 1)
      (w := log (EvUploadPart Bucket Key idx UploadId CHUNK_SIZE (b :: c)
                   (Ok (etag_of (b :: c))))
              (set_ext s' (log (EvFdRead CHUNK_SIZE (b :: c)) w)))
      (u := {| ObjectStore.up_bucket := Bucket; ObjectStore.up_key := Key;
               ObjectStore.up_parts :=
                 <[idx := (etag_of (b :: c), b :: c)]> (ObjectStore.up_parts u) |})
      (acc := acc ++ b :: c)
      as (etags & w' & u' & Hrun & Hsess & Hasm' & Hobj' & Hcred).
    { unfold ltof. subst f. rewrite length_app. simpl. lia. }
    { exact Hs'. }
    { simpl. apply assemble_snoc; [|apply lookup_insert_eq].
      by apply assemble_insert_above. }
    { apply Forall_app. split.
      - eapply Forall_impl; [exact Hlt|]. simpl. intros. lia.
      - constructor; [simpl; lia|constructor]. }
    exists (etag_of (b :: c) :: etags), w', u'.
    simpl new_parts. rewrite <- app_assoc in Hrun, Hasm'. simpl in Hrun, Hasm'.
    split; [exact Hrun|]. split; [exact Hsess|]. split.
    { rewrite Hasm'. subst f. by rewrite <- app_assoc. }
    split; [by rewrite Hobj'|exact Hcred].
Qed.

(** Against the reference store, when the credential lookup of
    [get_client] finds a record, [put] returns, the [get] that follows
    returns and receives the source stream; what [get] writes to the
    descriptor, followed by what it leaves in the buffer of its file
    object, is the source stream. *)
Lemma store_roundtrip backup filename read_fd
    (w : World ObjectStore.Store) credential :
  system_cloudcredentials w !! task_id backup = Some credential ->
  let s3 := ObjectStore.s3 etag_of in
  let up := BackupS3Service.put s3 backup filename read_fd w in
  let down := BackupS3Service.get s3 backup filename (snd up) in
  fst up = Ok tt
  /\ fst down = Ok tt
  /\ EvCreateMultipartUpload (bucket (task_attributes backup))
       (key_of backup filename) (Ok (pretty (ObjectStore.next_upload (ext w))))
     ∈ trace (snd up)
  /\ exists t unflushed,
       trace (snd down) =
         trace (snd up)
         ++ EvQuery "system.cloudcredentials" (task_id backup)
            :: EvGetObject (bucket (task_attributes backup))
                 (key_of backup filename) (Ok read_fd)
            :: t
       /\ written t ++ unflushed = read_fd
       /\ Z.of_nat (length unflushed) =
            if Z.of_nat (length read_fd) mod CHUNK_SIZE
               <=? BackupS3Service.DEFAULT_BUFFER_SIZE
            then Z.of_nat (length read_fd) mod CHUNK_SIZE else 0.
Proof.
  intros Hc. cbv zeta.
  set (Bucket := bucket (task_attributes backup)).
  set (Key := key_of backup filename).
  set (mp := pretty (ObjectStore.next_upload (ext w))).
  set (w1 := log (EvCreateMultipartUpload Bucket Key (Ok mp))
               (set_ext (snd (ObjectStore.create (client_of credential) Bucket Key (ext w)))
                  (log (EvQuery "system.cloudcredentials" (task_id backup)) w))).
  destruct (store_put_loop (client_of credential) Bucket Key mp read_fd [] 1 w1
              {| ObjectStore.up_bucket := Bucket; ObjectStore.up_key := Key;
                 ObjectStore.up_parts := ∅ |} [])
    as (etags & w2 & u2 & Hloop & Hsess & Hasm & Hobj & Hcred).
  { unfold ObjectStore.session. simpl. rewrite lookup_insert_eq. simpl.
    by rewrite !String.eqb_refl. }
  { reflexivity. }
  { constructor. }
  simpl in Hloop, Hasm.
  set (s3' := {| ObjectStore.upload_sessions :=
                   delete mp (ObjectStore.upload_sessions (ext w2));
                 ObjectStore.objects :=
                   <[(Bucket, Key) := read_fd]> (ObjectStore.objects (ext w2));
                 ObjectStore.next_upload := ObjectStore.next_upload (ext w2) |}).
  assert (BackupS3Service.put (ObjectStore.s3 etag_of) backup filename read_fd w =
          (Ok tt, log (EvCompleteMultipartUpload Bucket Key mp (new_parts 1 etags) (Ok tt))
                    (set_ext s3' w2))) as Hput.
  { unfold BackupS3Service.put, bind. rewrite get_client_run, Hc.
    fold (key_of backup filename). fold Key Bucket.
    rewrite (call_eq _ _ (log _ w) (Ok mp)
               (snd (ObjectStore.create (client_of credential) Bucket Key (ext w)))
               eq_refl).
    fold w1. rewrite Hloop.
    apply call_eq. simpl. unfold ObjectStore.complete.
    by rewrite Hsess, contiguous_new_parts, Hasm. }
  rewrite Hput. simpl fst. simpl snd.
  split; [done|].
  destruct (get_loop_unflushed read_fd
    (log (EvGetObject Bucket Key (Ok read_fd))
       (set_ext s3'
          (log (EvQuery "system.cloudcredentials" (task_id backup))
             (log (EvCompleteMultipartUpload Bucket Key mp (new_parts 1 etags) (Ok tt))
                (set_ext s3' w2))))))
    as (unflushed & w4 & t & Hget & Htr4 & _ & _ & Hw & Hlen).
  assert (BackupS3Service.get (ObjectStore.s3 etag_of) backup filename
            (log (EvCompleteMultipartUpload Bucket Key mp (new_parts 1 etags) (Ok tt))
               (set_ext s3' w2)) = (Ok tt, w4)) as Hdown.
  { unfold BackupS3Service.get, bind. rewrite get_client_run. simpl.
    rewrite Hcred. subst w1. simpl. rewrite Hc.
    fold (key_of backup filename). fold Key Bucket.
    rewrite (call_eq _ _ _ (Ok read_fd) s3').
    - by rewrite Hget.
    - simpl. unfold ObjectStore.get. simpl. by rewrite lookup_insert_eq. }
  rewrite Hdown. simpl fst. simpl snd.
  split; [done|]. split.
  - pose proof (put_loop_run (ObjectStore.s3 etag_of) (client_of credential)
                  Bucket Key mp read_fd [] 1 w1) as (sent & tags & tail & _ & Htr & _).
    rewrite Hloop in Htr. simpl in Htr.
    change (trace (log (EvCompleteMultipartUpload Bucket Key mp
                          (new_parts 1 etags) (Ok tt)) (set_ext s3' w2)))
      with (trace w2 ++ [EvCompleteMultipartUpload Bucket Key mp
                           (new_parts 1 etags) (Ok tt)]).
    rewrite Htr. rewrite !elem_of_app. left. left. right.
    by apply list_elem_of_singleton.
  - exists t, unflushed. split; [|by split].
    rewrite Htr4. simpl. by rewrite <- !app_assoc.
Qed.

Lemma put_without_credential {St} (s3 : S3 St) backup filename read_fd
    (w : World St) :
  system_cloudcredentials w !! task_id backup = None ->
  BackupS3Service.put s3 backup filename read_fd w =
    (Raise (TypeError "'NoneType' object is not subscriptable"),
     log (EvQuery "system.cloudcredentials" (task_id backup)) w).
Proof.
  intros Hc. unfold BackupS3Service.put, bind. by rewrite get_client_run, Hc.
Qed.

(** C2: [get] does not bring back what [put] stored.  Against the
    reference store, for a task whose id is also the id of a credential
    record and a source stream whose last chunk has between 1 and 8192
    bytes (a stream of 1 byte and a stream of 2 * 5 MiB + 1 bytes are such
    streams): [put] returns, the [get] of the same file name under the
    same task returns and receives the source stream from the store, but
    the last chunk stays in the buffer of the file object, which [get]
    never flushes: the bytes written to the destination are the source
    stream without its last chunk, and so differ from the source
    stream. *)
Theorem put_get_loses_last_chunk backup filename read_fd
    (w : World ObjectStore.Store) credential :
  system_cloudcredentials w !! task_id backup = Some credential ->
  0 < Z.of_nat (length read_fd) mod CHUNK_SIZE
    <= BackupS3Service.DEFAULT_BUFFER_SIZE ->
  let s3 := ObjectStore.s3 etag_of in
  let up := BackupS3Service.put s3 backup filename read_fd w in
  let down := BackupS3Service.get s3 backup filename (snd up) in
  fst up = Ok tt
  /\ fst down = Ok tt
  /\ exists t lost,
       trace (snd down) =
         trace (snd up)
         ++ EvQuery "system.cloudcredentials" (task_id backup)
            :: EvGetObject (bucket (task_attributes backup))
                 (key_of backup filename) (Ok read_fd)
            :: t
       /\ written t ++ lost = read_fd
       /\ Z.of_nat (length lost) = Z.of_nat (length read_fd) mod CHUNK_SIZE
       /\ written t <> read_fd.
Proof.
  intros Hc [Hpos Hsmall]. cbv zeta.
  destruct (store_roundtrip backup filename read_fd w credential Hc)
    as (Hup & Hdown & _ & t & lost & Htr & Hw & Hlen).
  split; [exact Hup|]. split; [exact Hdown|].
  exists t, lost. split; [exact Htr|]. split; [exact Hw|].
  destruct (Z.leb_spec (Z.of_nat (length read_fd) mod CHUNK_SIZE)
              BackupS3Service.DEFAULT_BUFFER_SIZE) as [_|?]; [|lia].
  split; [exact Hlen|].
  intros Heq. rewrite Heq in Hw.
  apply (f_equal (@length byte)) in Hw. rewrite length_app in Hw. lia.
Qed.
End RoundTrip.

(** ** The theorems at sample inputs *)

Lemma sync_tmpfile_owner_only_witness :
  exists t,
    trace (snd (BackupS3Service.sync Sample.host (Sample.task 1 1) Sample.amazon
                  (Sample.world 0))) = trace (Sample.world 0) ++ t
    /\ (forall p name f,
          p `prefix_of` t -> fs_after p !! name = Some f ->
          st_mode f = BackupS3Service.mode_0o600 /\ owner_only (st_mode f))
    /\ (forall p name data q,
          t = p ++ EvFileWrite name data :: q ->
          EvChmod name BackupS3Service.mode_0o600 ∈ p
          /\ fs_after p !! name =
               Some {| st_mode := BackupS3Service.mode_0o600;
                       content := EmptyString |}).
Proof.
  exact (sync_tmpfile_owner_only Sample.host (Sample.task 1 1) Sample.amazon
           (Sample.world 0)).
Defined.

Lemma put_parts_witness :
  let w := Sample.world ObjectStore.empty in
  let w' := snd (BackupS3Service.put Sample.store (Sample.task 1 1) "f.bin"
                   Sample.three_bytes w) in
  BackupS3Service.put Sample.store (Sample.task 1 1) "f.bin" Sample.three_bytes w =
    (Ok tt, w')
  /\ exists t Parts,
       trace w' = trace w ++ t
       /\ Z.of_nat (length (uploads t)) = 1
       /\ concat (call_Body <$> uploads t) = Sample.three_bytes
       /\ call_PartNumber <$> uploads t = [1]
       /\ completes t = [Parts]
       /\ PartNumber <$> Parts = [1].
Proof.
  cbv zeta.
  assert (BackupS3Service.put Sample.store (Sample.task 1 1) "f.bin"
            Sample.three_bytes (Sample.world ObjectStore.empty) =
          (Ok tt, snd (BackupS3Service.put Sample.store (Sample.task 1 1) "f.bin"
                         Sample.three_bytes (Sample.world ObjectStore.empty))))
    as Hput by (vm_compute; reflexivity).
  split; [exact Hput|].
  destruct (put_parts Sample.store (Sample.task 1 1) "f.bin" Sample.three_bytes
              (Sample.world ObjectStore.empty) _ Hput)
    as (_ & t & Parts & Htr & Hn & _ & Hcat & Hnum & Hcompl & Hparts & _).
  exists t, Parts. repeat split; assumption.
Defined.

Lemma put_upload_failure_witness :
  let run := BackupS3Service.put Sample.flaky (Sample.task 1 1) "f.bin"
               Sample.three_bytes (Sample.world 0) in
  let u := {| call_PartNumber := 1; call_ContentLength := CHUNK_SIZE;
              call_Body := Sample.three_bytes;
              call_result := Raise (ClientError "RequestTimeout") |} in
  u ∈ uploads (trace (snd run))
  /\ fst run = Raise (ClientError "RequestTimeout")
  /\ completes (trace (snd run)) = []
  /\ exists t0 ev, trace (snd run) = t0 ++ [ev] /\ upload_of ev = Some u.
Proof.
  cbv zeta.
  assert ({| call_PartNumber := 1; call_ContentLength := CHUNK_SIZE;
             call_Body := Sample.three_bytes;
             call_result := Raise (ClientError "RequestTimeout") |}
          ∈ uploads (trace (snd (BackupS3Service.put Sample.flaky (Sample.task 1 1)
                                   "f.bin" Sample.three_bytes (Sample.world 0)))))
    as Hin.
  { replace (uploads _) with
      [{| call_PartNumber := 1; call_ContentLength := CHUNK_SIZE;
          call_Body := Sample.three_bytes;
          call_result := Raise (ClientError "RequestTimeout") |}]
      by (vm_compute; reflexivity).
    by apply list_elem_of_singleton. }
  split; [exact Hin|].
  destruct (put_upload_failure Sample.flaky (Sample.task 1 1) "f.bin"
              Sample.three_bytes (Sample.world 0) _ _
              (ClientError "RequestTimeout") eq_refl Hin eq_refl)
    as (Hres & Hcompl & Hlast & _).
  repeat split; assumption.
Defined.

Lemma put_declared_length_witness :
  let run := BackupS3Service.put Sample.store (Sample.task 1 1) "f.bin"
               Sample.three_bytes (Sample.world ObjectStore.empty) in
  fst run = Ok tt
  /\ 3 mod CHUNK_SIZE <> 0
  /\ Forall (fun u => call_ContentLength u = CHUNK_SIZE
                      /\ 0 < Z.of_nat (length (call_Body u)) <= CHUNK_SIZE)
            (uploads (trace (snd run)))
  /\ exists u, last (uploads (trace (snd run))) = Some u
               /\ Z.of_nat (length (call_Body u)) = 3
               /\ Z.of_nat (length (call_Body u)) < call_ContentLength u.
Proof.
  cbv zeta.
  assert (fst (BackupS3Service.put Sample.store (Sample.task 1 1) "f.bin"
                 Sample.three_bytes (Sample.world ObjectStore.empty)) = Ok tt)
    as Hok by (vm_compute; reflexivity).
  assert (Z.of_nat (length Sample.three_bytes) mod CHUNK_SIZE <> 0) as Hmod
    by (vm_compute; discriminate).
  split; [exact Hok|]. split; [exact Hmod|].
  destruct (put_declared_length Sample.store (Sample.task 1 1) "f.bin"
              Sample.three_bytes (Sample.world ObjectStore.empty) _ eq_refl)
    as (_ & Hall & Hshort).
  split; [exact Hall|]. exact (Hshort Hok Hmod).
Defined.

Lemma put_empty_stream_witness :
  let run := BackupS3Service.put Sample.store (Sample.task 1 1) "f.bin" []
               (Sample.world ObjectStore.empty) in
  trace (snd run) =
    [EvQuery "system.cloudcredentials" 1;
     EvCreateMultipartUpload "bkt" "dir/f.bin" (Ok "0");
     EvFdRead CHUNK_SIZE [];
     EvCompleteMultipartUpload "bkt" "dir/f.bin" "0" [] (fst run)]
  /\ uploads (trace (snd run)) = []
  /\ completes (trace (snd run)) = [[]].
Proof.
  cbv zeta.
  destruct (put_empty_stream Sample.store (Sample.task 1 1) "f.bin"
              (Sample.world ObjectStore.empty) Sample.amazon "0"
              (snd (ObjectStore.create (client_of Sample.amazon)
                      "bkt" "dir/f.bin" ObjectStore.empty))
              eq_refl eq_refl)
    as (t & Htr & Ht & Hup & Hcompl & _).
  simpl in Htr. rewrite Htr. subst t. repeat split.
Defined.

Lemma put_get_loses_last_chunk_witness :
  let up := BackupS3Service.put Sample.store (Sample.task 1 1) "f.bin"
              Sample.three_bytes (Sample.world ObjectStore.empty) in
  let down := BackupS3Service.get Sample.store (Sample.task 1 1) "f.bin" (snd up) in
  fst up = Ok tt
  /\ fst down = Ok tt
  /\ exists t,
       trace (snd down) =
         trace (snd up)
         ++ EvQuery "system.cloudcredentials" 1
            :: EvGetObject "bkt" "dir/f.bin" (Ok Sample.three_bytes) :: t
       /\ written t <> Sample.three_bytes.
Proof.
  cbv zeta.
  assert (system_cloudcredentials (Sample.world ObjectStore.empty)
            !! task_id (Sample.task 1 1) = Some Sample.amazon)
    as Hc by (vm_compute; reflexivity).
  assert (0 < Z.of_nat (length Sample.three_bytes) mod CHUNK_SIZE
            <= BackupS3Service.DEFAULT_BUFFER_SIZE)
    as Hlen by (vm_compute; split; [reflexivity|discriminate]).
  destruct (put_get_loses_last_chunk Sample.etag_of (Sample.task 1 1) "f.bin"
              Sample.three_bytes (Sample.world ObjectStore.empty) Sample.amazon
              Hc Hlen)
    as (Hup & Hdown & t & lost & Htr & _ & _ & Hneq).
  split; [exact Hup|]. split; [exact Hdown|].
  exists t. split; assumption.
Defined.

(** ** Runs on the sample inputs *)

Example search_bytes :
  RE_TRANSF_search (Bytes (String.append "Transferred: 42%" (String "010" EmptyString))) =
    Raise (TypeError "cannot use a string pattern on a bytes-like object").
Proof. reflexivity. Qed.

Example search_percent :
  RE_TRANSF_search (Str (String.append "Transferred: 42%" (String "010" EmptyString))) =
    Ok (Some (String.append " 42%" (String "010" EmptyString))).
Proof. reflexivity. Qed.

Example search_leftmost :
  RE_TRANSF_search (Str "2016/12/01 Transferred:   10 Bytes Transferred: 5") =
    Ok (Some "   10 Bytes Transferred: 5").
Proof. reflexivity. Qed.

Example search_nothing_follows : RE_TRANSF_search (Str "Transferred:") = Ok None.
Proof. reflexivity. Qed.

Example strip_both_ends :
  strip (String.append "  1.2 MBytes " (String "010" EmptyString)) = "1.2 MBytes".
Proof. reflexivity. Qed.

Example isdigit_cases :
  (isdigit "1048576", isdigit "42%", isdigit EmptyString) = (true, false, false).
Proof. reflexivity. Qed.

Example join_cases :
  (os_path_join EmptyString "f.bin", os_path_join "dir" "f.bin",
   os_path_join "dir/" "f.bin", os_path_join "dir" "/f.bin") =
  ("f.bin", "dir/f.bin", "dir/f.bin", "/f.bin").
Proof. reflexivity. Qed.

(** A whole scan: the first line read ends it, and an empty read before
    any line ends it without an error. *)
Example scan_stream :
  (BackupS3Service.check_progress
     ["Transferred: 42%"; "Transferred: 1048576"; "Errors: 0"; EmptyString],
   BackupS3Service.check_progress ["Errors: 0"; "Transferred: 42%"],
   BackupS3Service.check_progress [EmptyString; "Transferred: 42%"]) =
  ((Raise (TypeError "cannot use a string pattern on a bytes-like object"), []),
   (Raise (TypeError "cannot use a string pattern on a bytes-like object"), []),
   (Ok tt, [])).
Proof. reflexivity. Qed.

(** The calls of a failing tree sync. *)
Example sync_failed_trace :
  BackupService.sync Sample.host 1 (Sample.world 1) =
    (Raise (ValueError "rclone failed: Failed to sync"),
     {| trace :=
          [EvQuery "tasks.cloudsync" 1;
           EvQuery "system.cloudcredentials" 1;
           EvTmpCreate "/tmp/tmpq1w2e3" 384;
           EvChmod "/tmp/tmpq1w2e3" 384;
           EvFileWrite "/tmp/tmpq1w2e3"
             (BackupS3Service.config "AKIDEXAMPLE" "s3cr3t" EmptyString);
           EvFileFlush "/tmp/tmpq1w2e3";
           EvPopen ["/usr/local/bin/rclone"; "--config"; "/tmp/tmpq1w2e3";
                    "--stats"; "1s"; "sync"; "/mnt/tank/data"; "remote:bkt"]
                   (Ok tt);
           EvSpawnCheckProgress;
           EvCommunicate "Failed to sync" 1;
           EvTmpDelete "/tmp/tmpq1w2e3"];
        tasks_cloudsync := tasks_cloudsync (Sample.world 1);
        system_cloudcredentials := system_cloudcredentials (Sample.world 1);
        ext := 1 |}).
Proof. vm_compute. reflexivity. Qed.

(** The calls of [put] and [get] on a three-byte stream: the three bytes
    that [get] receives stay in the buffer of its file object. *)
Example put_get_trace :
  let up := BackupS3Service.put Sample.store (Sample.task 1 1) "f.bin"
              Sample.three_bytes (Sample.world ObjectStore.empty) in
  trace (snd (BackupS3Service.get Sample.store (Sample.task 1 1) "f.bin" (snd up))) =
    [EvQuery "system.cloudcredentials" 1;
     EvCreateMultipartUpload "bkt" "dir/f.bin" (Ok "0");
     EvFdRead 5242880 Sample.three_bytes;
     EvUploadPart "bkt" "dir/f.bin" 1 "0" 5242880 Sample.three_bytes (Ok "3");
     EvFdRead 5242880 [];
     EvCompleteMultipartUpload "bkt" "dir/f.bin" "0"
       [{| ETag := "3"; PartNumber := 1 |}] (Ok tt);
     EvQuery "system.cloudcredentials" 1;
     EvGetObject "bkt" "dir/f.bin" (Ok Sample.three_bytes)].
Proof. vm_compute. reflexivity. Qed.

(** [put] hands the id of the task to [get_client]: for a task with id 5
    that refers to credential 1, the lookup is for credential 5. *)
Example put_looks_up_task_id :
  BackupS3Service.put Sample.store (Sample.task 5 1) "f.bin" Sample.three_bytes
    (Sample.world ObjectStore.empty) =
    (Raise (TypeError "'NoneType' object is not subscriptable"),
     log (EvQuery "system.cloudcredentials" 5) (Sample.world ObjectStore.empty)).
Proof. vm_compute. reflexivity. Qed.

(** With no upload allowed, the first [upload_part] raises and ends the
    run. *)
Example put_flaky_trace :
  BackupS3Service.put Sample.flaky (Sample.task 1 1) "f.bin" Sample.three_bytes
    (Sample.world 0) =
    (Raise (ClientError "RequestTimeout"),
     {| trace :=
          [EvQuery "system.cloudcredentials" 1;
           EvCreateMultipartUpload "bkt" "dir/f.bin" (Ok "upload-1");
           EvFdRead 5242880 Sample.three_bytes;
           EvUploadPart "bkt" "dir/f.bin" 1 "upload-1" 5242880
             Sample.three_bytes (Raise (ClientError "RequestTimeout"))];
        tasks_cloudsync := tasks_cloudsync (Sample.world 0);
        system_cloudcredentials := system_cloudcredentials (Sample.world 0);
        ext := 0 |}).
Proof. vm_compute. reflexivity. Qed.

(** * Further properties *)

(** ** Every path of the tree sync *)

Section TreeSyncPaths.
Context {St : Type} (host : Host St).

(** The run of the tree sync, path by path. *)
Lemma sync_run backup credential (w : World St) :
  BackupS3Service.sync host backup credential w =
    match mkstemp host (ext w) with
    | (Raise e, s1) => (Raise e, set_ext s1 w)
    | (Ok name, s1) =>
        let w1 := log (EvChmod name BackupS3Service.mode_0o600)
                    (log (EvTmpCreate name BackupS3Service.mode_0o600)
                       (set_ext s1 w)) in
        match cred_attributes credential !! "access_key",
              cred_attributes credential !! "secret_key" with
        | None, _ => (Raise (KeyError "access_key"), log (EvTmpDelete name) w1)
        | Some _, None =>
            (Raise (KeyError "secret_key"), log (EvTmpDelete name) w1)
        | Some ak, Some sk =>
            let w2 := log (EvFileFlush name)
                        (log (EvFileWrite name
                                (BackupS3Service.config ak sk
                                   (or_empty (region (task_attributes backup)))))
                           w1) in
            let args := BackupS3Service.rclone_args backup name in
            match popen host args s1 with
            | (Raise e, s2) =>
                (Raise e,
                 log (EvTmpDelete name)
                   (log (EvPopen args (Raise e)) (set_ext s2 w2)))
            | (Ok _, s2) =>
                let '((stderr, rc), s3) := communicate host s2 in
                (if rc =? 0 then Ok true
                 else Raise (ValueError
                               ("rclone failed: " +:+ format_bytes host stderr)),
                 log (EvTmpDelete name)
                   (log (EvCommunicate stderr rc)
                      (set_ext s3
                         (log EvSpawnCheckProgress
                            (log (EvPopen args (Ok tt)) (set_ext s2 w2))))))
            end
        end
    end.
Proof.
  unfold BackupS3Service.sync, bind, BackupS3Service.NamedTemporaryFile.
  destruct (mkstemp host (ext w)) as [[name|e] s1]; [|reflexivity].
  unfold BackupS3Service.sync_with, bind, emit, getitem, call, ret, raise.
  cbn [ext log set_ext].
  destruct (cred_attributes credential !! "access_key") as [ak|]; [|reflexivity].
  destruct (cred_attributes credential !! "secret_key") as [sk|]; [|reflexivity].
  cbn [ext log set_ext].
  destruct (popen host _ s1) as [[[]|e] s2]; [|reflexivity].
  cbn [ext log set_ext].
  destruct (communicate host s2) as [[stderr rc] s3]. cbn [fst snd].
  by destruct (rc =? 0).
Qed.

(** X1: once the temporary file exists, every run of the tree sync,
    whether it returns or raises, starts with the creation of the file and
    ends with its deletion, and no file of the run is left. *)
Theorem sync_deletes_tmpfile backup credential (w : World St) name s1 :
  mkstemp host (ext w) = (Ok name, s1) ->
  exists t,
    trace (snd (BackupS3Service.sync host backup credential w)) =
      trace w ++ EvTmpCreate name BackupS3Service.mode_0o600 :: t
    /\ last t = Some (EvTmpDelete name)
    /\ fs_after (EvTmpCreate name BackupS3Service.mode_0o600 :: t) = ∅.
Proof.
  intros Hmk. rewrite sync_run, Hmk. cbv zeta.
  assert (forall f : File, delete name (<[name := f]> (∅ : gmap string File)) = ∅)
    as Hdel.
  { intros f. by rewrite delete_insert_eq, delete_empty. }
  destruct (cred_attributes credential !! "access_key") as [ak|].
  2:{ eexists [_; _]. simpl. rewrite <- !app_assoc.
      split; [reflexivity|]. split; [reflexivity|].
      unfold fs_after. simpl. rewrite alter_insert_eq. apply Hdel. }
  destruct (cred_attributes credential !! "secret_key") as [sk|].
  2:{ eexists [_; _]. simpl. rewrite <- !app_assoc.
      split; [reflexivity|]. split; [reflexivity|].
      unfold fs_after. simpl. rewrite alter_insert_eq. apply Hdel. }
  destruct (popen host _ s1) as [[[]|e] s2].
  2:{ eexists [_; _; _; _; _]. simpl. rewrite <- !app_assoc.
      split; [reflexivity|]. split; [reflexivity|].
      unfold fs_after. simpl. rewrite !alter_insert_eq. apply Hdel. }
  destruct (communicate host s2) as [[stderr rc] s3].
  eexists [_; _; _; _; _; _; _]. simpl. rewrite <- !app_assoc.
  split; [reflexivity|]. split; [reflexivity|].
  unfold fs_after. simpl. rewrite !alter_insert_eq. apply Hdel.
Qed.

(** X2: a credential without [access_key], or with it but without
    [secret_key], makes the tree sync raise [KeyError] for that key; the
    temporary file is created, restricted and deleted, and nothing is
    written to it and no process is started. *)
Theorem sync_missing_key backup credential (w : World St) name s1 key :
  mkstemp host (ext w) = (Ok name, s1) ->
  (cred_attributes credential !! "access_key" = None /\ key = "access_key")
  \/ (is_Some (cred_attributes credential !! "access_key")
      /\ cred_attributes credential !! "secret_key" = None
      /\ key = "secret_key") ->
  BackupS3Service.sync host backup credential w =
    (Raise (KeyError key),
     log (EvTmpDelete name)
       (log (EvChmod name BackupS3Service.mode_0o600)
          (log (EvTmpCreate name BackupS3Service.mode_0o600) (set_ext s1 w)))).
Proof.
  intros Hmk Hkey. rewrite sync_run, Hmk. cbv zeta.
  destruct Hkey as [[-> ->]|([ak ->] & -> & ->)]; reflexivity.
Qed.

(** X3: when rclone cannot be started, the tree sync raises the error of
    [Popen]; by then the configuration has been written and flushed; the
    scanner is not spawned, [communicate] is not called, and the temporary
    file is deleted. *)
Theorem sync_popen_failure backup credential (w : World St) name s1 ak sk e s2 :
  mkstemp host (ext w) = (Ok name, s1) ->
  cred_attributes credential !! "access_key" = Some ak ->
  cred_attributes credential !! "secret_key" = Some sk ->
  popen host (BackupS3Service.rclone_args backup name) s1 = (Raise e, s2) ->
  fst (BackupS3Service.sync host backup credential w) = Raise e
  /\ trace (snd (BackupS3Service.sync host backup credential w)) =
       trace w ++
       [EvTmpCreate name BackupS3Service.mode_0o600;
        EvChmod name BackupS3Service.mode_0o600;
        EvFileWrite name
          (BackupS3Service.config ak sk
             (or_empty (region (task_attributes backup))));
        EvFileFlush name;
        EvPopen (BackupS3Service.rclone_args backup name) (Raise e);
        EvTmpDelete name]
  /\ ext (snd (BackupS3Service.sync host backup credential w)) = s2.
Proof.
  intros Hmk Hak Hsk Hp. rewrite sync_run, Hmk. cbv zeta.
  rewrite Hak, Hsk, Hp. simpl. by rewrite <- !app_assoc.
Qed.

(** X4: the tree sync uses the path, the bucket and the region of the
    task and nothing else of it: two tasks that agree on these three give
    the same run, whatever their folders and ids.  Whenever a run starts
    rclone, it is with the arguments
    [/usr/local/bin/rclone --config <file> --stats 1s sync <path> remote:<bucket>],
    where [<file>] is the temporary file of the run, [<path>] the path of
    the task and [<bucket>] its bucket: the destination is always
    [remote:<bucket>], without the folder. *)
Theorem sync_ignores_folder backup backup' credential (w : World St) :
  task_path backup = task_path backup' ->
  bucket (task_attributes backup) = bucket (task_attributes backup') ->
  or_empty (region (task_attributes backup)) =
    or_empty (region (task_attributes backup')) ->
  BackupS3Service.sync host backup credential w =
    BackupS3Service.sync host backup' credential w
  /\ exists t,
       trace (snd (BackupS3Service.sync host backup credential w)) =
         trace w ++ t
       /\ forall args r,
            EvPopen args r ∈ t ->
            exists name,
              EvTmpCreate name BackupS3Service.mode_0o600 ∈ t
              /\ args =
                   ["/usr/local/bin/rclone"; "--config"; name; "--stats"; "1s";
                    "sync"; task_path backup;
                    "remote:" +:+ bucket (task_attributes backup)].
Proof.
  intros Hpath Hbucket Hregion. split.
  { rewrite !sync_run.
    unfold BackupS3Service.rclone_args. by rewrite Hpath, Hbucket, Hregion. }
  rewrite sync_run.
  destruct (mkstemp host (ext w)) as [[name|e] s1].
  2:{ exists []. simpl. rewrite app_nil_r. split; [done|].
      intros args r Hin. by apply elem_of_nil in Hin. }
  cbv zeta.
  destruct (cred_attributes credential !! "access_key") as [ak|];
    [destruct (cred_attributes credential !! "secret_key") as [sk|];
     [destruct (popen host _ s1) as [[[]|e] s2];
      [destruct (communicate host s2) as [[stderr rc] s3]|]|]|];
    cbn [snd trace log set_ext]; rewrite <- ?app_assoc; simpl;
    eexists; (split; [reflexivity|]);
    intros args r Hin;
    repeat (apply elem_of_cons in Hin as [Heq|Hin]; [try discriminate Heq|]);
    try (by apply elem_of_nil in Hin);
    injection Heq as -> _; exists name; (split; [by left|reflexivity]).
Qed.

(** X5: the dispatcher never returns [False]; when it returns, the
    credential is an ['AMAZON'] one and the calls of the run are exactly
    the two lookups, the creation and restriction of the temporary file,
    the write and flush of the configuration, the start of rclone on it,
    the spawn of the scanner, a [communicate] that reports exit code 0, and
    the deletion of the file. *)
Theorem sync_returns_after_exit_zero (w w' : World St) id b :
  BackupService.sync host id w = (Ok b, w') ->
  b = true
  /\ exists backup credential name ak sk stderr,
       tasks_cloudsync w !! id = Some backup
       /\ system_cloudcredentials w !! ref_id (task_credential backup) =
            Some credential
       /\ cred_provider credential = "AMAZON"
       /\ trace w' =
            trace w ++
            [EvQuery "tasks.cloudsync" id;
             EvQuery "system.cloudcredentials" (ref_id (task_credential backup));
             EvTmpCreate name BackupS3Service.mode_0o600;
             EvChmod name BackupS3Service.mode_0o600;
             EvFileWrite name
               (BackupS3Service.config ak sk
                  (or_empty (region (task_attributes backup))));
             EvFileFlush name;
             EvPopen (BackupS3Service.rclone_args backup name) (Ok tt);
             EvSpawnCheckProgress;
             EvCommunicate stderr 0;
             EvTmpDelete name].
Proof.
  unfold BackupService.sync, bind, query_tasks_cloudsync,
    query_system_cloudcredentials.
  destruct (tasks_cloudsync w !! id) as [backup|] eqn:Hid; [|discriminate].
  cbn [tasks_cloudsync system_cloudcredentials log].
  destruct (system_cloudcredentials w !! ref_id (task_credential backup))
    as [credential|] eqn:Hcred; [|discriminate].
  destruct (String.eqb_spec (cred_provider credential) "AMAZON") as [Hprov|_];
    [|discriminate].
  rewrite sync_run. cbn [ext log].
  destruct (mkstemp host (ext w)) as [[name|e] s1]; [|discriminate].
  cbv zeta.
  destruct (cred_attributes credential !! "access_key") as [ak|]; [|discriminate].
  destruct (cred_attributes credential !! "secret_key") as [sk|]; [|discriminate].
  destruct (popen host _ s1) as [[[]|e] s2]; [|discriminate].
  destruct (communicate host s2) as [[stderr rc] s3].
  destruct (Z.eqb_spec rc 0) as [->|_]; [|discriminate].
  intros [= <- <-]. split; [reflexivity|].
  exists backup, credential, name, ak, sk, stderr.
  repeat split; try assumption. simpl. by rewrite <- !app_assoc.
Qed.
End TreeSyncPaths.

(** ** get for every client *)

Section GetRun.
Context {St : Type} (s3 : S3 St).

Lemma get_run backup filename (w : World St) :
  BackupS3Service.get s3 backup filename w =
    let lookup := EvQuery "system.cloudcredentials" (task_id backup) in
    let Bucket := bucket (task_attributes backup) in
    let Key := key_of backup filename in
    match system_cloudcredentials w !! task_id backup with
    | None => (Raise (TypeError "'NoneType' object is not subscriptable"),
               log lookup w)
    | Some credential =>
        match get_object s3 (client_of credential) Bucket Key (ext w) with
        | (Ok body, s) =>
            let loop :=
              BackupS3Service.get_loop body []
                (log (EvGetObject Bucket Key (Ok body)) (set_ext s (log lookup w))) in
            (match fst loop with Ok _ => Ok tt | Raise e => Raise e end,
             snd loop)
        | (Raise e, s) =>
            (Raise e,
             log (EvGetObject Bucket Key (Raise e)) (set_ext s (log lookup w)))
        end
    end.
Proof.
  cbv zeta. unfold BackupS3Service.get, bind. rewrite get_client_run.
  fold (key_of backup filename).
  destruct (system_cloudcredentials w !! task_id backup) as [credential|];
    [|reflexivity].
  unfold call. cbn [ext log].
  destruct (get_object s3 _ _ _ (ext w)) as [[body|e] s]; [|reflexivity].
  by destruct (BackupS3Service.get_loop body [] _) as [[?|?] ?].
Qed.

Lemma fd_writes_only t :
  Forall (fun e => exists d, e = EvFdWrite d) t ->
  uploads t = [] /\ completes t = []
  /\ Forall (fun e => is_create e = false /\ is_fd_read e = false) t.
Proof.
  induction 1 as [|e t [d ->] _ (Hu & Hc & Hall)]; [by repeat split|].
  rewrite uploads_cons, completes_cons. cbn [upload_of complete_of].
  repeat split; try assumption. by constructor.
Qed.


(** X12: when [get_object] raises, [get] raises the same exception and
    writes nothing to the destination. *)
Theorem get_object_failure backup filename (w : World St) credential e s :
  system_cloudcredentials w !! task_id backup = Some credential ->
  get_object s3 (client_of credential) (bucket (task_attributes backup))
    (key_of backup filename) (ext w) = (Raise e, s) ->
  BackupS3Service.get s3 backup filename w =
    (Raise e,
     log (EvGetObject (bucket (task_attributes backup))
            (key_of backup filename) (Raise e))
       (set_ext s (log (EvQuery "system.cloudcredentials" (task_id backup)) w))).
Proof.
  intros Hc Hget. rewrite get_run. cbv zeta. by rewrite Hc, Hget.
Qed.

(** X13: in no run does [get] create a session, upload a part, complete a
    session or read a source stream. *)
Theorem get_never_uploads backup filename (w : World St) :
  exists t,
    trace (snd (BackupS3Service.get s3 backup filename w)) = trace w ++ t
    /\ uploads t = []
    /\ completes t = []
    /\ Forall (fun e => is_create e = false /\ is_fd_read e = false) t.
Proof.
  rewrite get_run. cbv zeta.
  destruct (system_cloudcredentials w !! task_id backup) as [credential|].
  2:{ exists [EvQuery "system.cloudcredentials" (task_id backup)].
      repeat split. by repeat constructor. }
  destruct (get_object s3 _ _ _ (ext w)) as [[body|e] s].
  2:{ eexists [_; _]. simpl. rewrite <- !app_assoc. repeat split.
      by repeat constructor. }
  match goal with
  | |- context [BackupS3Service.get_loop body [] ?w0] =>
      destruct (get_loop_run body [] w0)
        as (pending' & w' & t & Hrun & Htr & Hall & _)
  end.
  rewrite Hrun. cbn [snd].
  exists (EvQuery "system.cloudcredentials" (task_id backup)
          :: EvGetObject (bucket (task_attributes backup))
               (key_of backup filename) (Ok body) :: t).
  split; [rewrite Htr; simpl; by rewrite <- !app_assoc|].
  destruct (fd_writes_only t Hall) as (Hu & Hcm & Hall').
  rewrite !uploads_cons, !completes_cons. cbn [upload_of complete_of].
  split; [done|]. split; [done|]. by repeat constructor.
Qed.
End GetRun.


Lemma get_object_failure_witness :
  BackupS3Service.get Sample.flaky (Sample.task 1 1) "f.bin" (Sample.world 0) =
    (Raise (ClientError "NoSuchKey"),
     log (EvGetObject "bkt" "dir/f.bin" (Raise (ClientError "NoSuchKey")))
       (set_ext 0 (log (EvQuery "system.cloudcredentials" 1) (Sample.world 0)))).
Proof.
  exact (get_object_failure Sample.flaky (Sample.task 1 1) "f.bin"
           (Sample.world 0) Sample.amazon (ClientError "NoSuchKey") 0
           eq_refl eq_refl).
Defined.

(** ** put for every client *)

Section PartEventsMore.
Context (Bucket Key UploadId : string).

Lemma part_events_sessions idx cs etags :
  Forall (fun e => (session_of e = Some (Bucket, Key, UploadId)
                    \/ is_fd_read e = true)
                   /\ is_get_object e = false /\ written_of e = [])
         (part_events Bucket Key UploadId idx cs etags).
Proof.
  revert idx etags. induction cs as [|c cs IH]; intros idx [|etag etags];
    try constructor; [by split; [right|]|].
  constructor; [by split; [left|]|apply IH].
Qed.
End PartEventsMore.

Lemma written_nil_Forall t : Forall (fun e => written_of e = []) t -> written t = [].
Proof.
  unfold written. induction 1 as [|e t He _ IH]; [done|].
  rewrite fmap_cons. cbn [concat]. by rewrite He, IH.
Qed.

Section PutPaths.
Context {St : Type} (s3 : S3 St).

(** X14: when the session cannot be created, [put] raises the error of
    [create_multipart_upload] without reading the source stream, uploading
    or completing anything. *)
Theorem put_create_failure backup filename read_fd (w : World St)
    credential e s1 :
  system_cloudcredentials w !! task_id backup = Some credential ->
  create_multipart_upload s3 (client_of credential)
    (bucket (task_attributes backup)) (key_of backup filename) (ext w) =
    (Raise e, s1) ->
  BackupS3Service.put s3 backup filename read_fd w =
    (Raise e,
     log (EvCreateMultipartUpload (bucket (task_attributes backup))
            (key_of backup filename) (Raise e))
       (set_ext s1 (log (EvQuery "system.cloudcredentials" (task_id backup)) w))).
Proof.
  intros Hc Hcreate. unfold BackupS3Service.put, bind.
  rewrite get_client_run, Hc. fold (key_of backup filename).
  by rewrite (call_eq _ _ (log _ w) (Raise e) s1 Hcreate).
Qed.

(** X15: when a run of [put] reaches the completion call, every chunk of
    the stream has been uploaded, the call lists one part per chunk, it is
    the last call of the run, and [put] returns or raises exactly what the
    call does. *)
Theorem put_returns_completion backup filename read_fd (w : World St)
    t Bucket Key UploadId Parts r :
  let run := BackupS3Service.put s3 backup filename read_fd w in
  trace (snd run) = trace w ++ t ->
  EvCompleteMultipartUpload Bucket Key UploadId Parts r ∈ t ->
  fst run = r
  /\ last t = Some (EvCompleteMultipartUpload Bucket Key UploadId Parts r)
  /\ call_Body <$> uploads t = chunks read_fd
  /\ Forall (fun u => exists etag, call_result u = Ok etag) (uploads t)
  /\ length Parts = length (chunks read_fd).
Proof.
  cbv zeta. intros Htr Hin.
  assert (Parts ∈ completes t) as Hcompl.
  { unfold completes. apply list_elem_of_omap. eexists. by split; [exact Hin|]. }
  pose proof (put_run s3 backup filename read_fd w) as Hrun. cbv zeta in Hrun.
  destruct Hrun as [(_ & Htr' & _)|[(e' & Htr' & _)|Hrun]].
  1,2: rewrite Htr in Htr'; apply app_inv_head in Htr'; subst t;
       by apply elem_of_nil in Hcompl.
  destruct Hrun as (mp & sent & etags & Hlen & [(-> & Htr')|Hfail]).
  2:{ destruct Hfail as (e' & c & rest & _ & _ & Htr').
      rewrite Htr in Htr'. apply app_inv_head in Htr'. subst t.
      revert Hcompl. read_trace. intros H. by apply elem_of_nil in H. }
  rewrite Htr in Htr'. apply app_inv_head in Htr'. subst t.
  pose proof (part_events_sessions (bucket (task_attributes backup))
                (key_of backup filename) mp 1 (chunks read_fd) etags) as Hpe.
  rewrite Forall_forall in Hpe.
  cbn [app] in Hin.
  apply elem_of_cons in Hin as [Hin|Hin]; [discriminate Hin|].
  apply elem_of_cons in Hin as [Hin|Hin]; [discriminate Hin|].
  apply elem_of_app in Hin as [Hin|Hin].
  { destruct (Hpe _ Hin) as [[Hs|Hr] _]; [|discriminate Hr].
    exfalso. clear -Hin.
    revert Hin. generalize 1. generalize etags.
    induction (chunks read_fd) as [|c cs IH]; intros [|etag tags] n Hin;
      try (by apply elem_of_nil in Hin).
    cbn [part_events] in Hin.
    apply elem_of_cons in Hin as [Hin|Hin]; [discriminate Hin|].
    apply elem_of_cons in Hin as [Hin|Hin]; [discriminate Hin|].
    by eapply IH. }
  apply elem_of_cons in Hin as [Hin|Hin]; [discriminate Hin|].
  apply list_elem_of_singleton in Hin. injection Hin as -> -> -> -> ->.
  split; [done|]. split.
  { match goal with
    | |- last (?a ++ ?b ++ [?x; ?y]) = _ =>
        change (last ((a ++ b ++ [x]) ++ [y]) = Some y) ||
        replace (a ++ b ++ [x; y]) with ((a ++ b ++ [x]) ++ [y])
          by (by rewrite <- !app_assoc)
    end.
    apply last_snoc. }
  read_trace. split; [by apply uploads_part_events_bodies|]. split.
  - eapply Forall_impl; [apply uploads_part_events_declared|].
    by intros ? [_ ?].
  - rewrite <- Hlen. clear. generalize 1.
    induction etags as [|etag etags IH]; intros n; [done|].
    simpl. by rewrite IH.
Qed.

(** X16: in every run of [put], each [upload_part] call and the
    completion call address the bucket of the task, the key computed from
    its folder and the file name, and the upload id that
    [create_multipart_upload] returned in this run. *)
Theorem put_same_session backup filename read_fd (w : World St) t e
    Bucket Key UploadId :
  trace (snd (BackupS3Service.put s3 backup filename read_fd w)) = trace w ++ t ->
  e ∈ t ->
  session_of e = Some (Bucket, Key, UploadId) ->
  Bucket = bucket (task_attributes backup)
  /\ Key = key_of backup filename
  /\ EvCreateMultipartUpload Bucket Key (Ok UploadId) ∈ t.
Proof.
  intros Htr Hin Hs.
  pose proof (put_run s3 backup filename read_fd w) as Hrun. cbv zeta in Hrun.
  destruct Hrun as [(_ & Htr' & _)|[(e' & Htr' & _)|Hrun]].
  1,2: rewrite Htr in Htr'; apply app_inv_head in Htr'; subst t;
       repeat (apply elem_of_cons in Hin as [->|Hin]; [discriminate Hs|]);
       by apply elem_of_nil in Hin.
  assert (exists mp sent etags tail,
            t = EvQuery "system.cloudcredentials" (task_id backup)
                :: EvCreateMultipartUpload (bucket (task_attributes backup))
                     (key_of backup filename) (Ok mp)
                :: part_events (bucket (task_attributes backup))
                     (key_of backup filename) mp 1 sent etags ++ tail
            /\ Forall (fun e => forall x, session_of e = Some x ->
                         x = (bucket (task_attributes backup),
                              key_of backup filename, mp)) tail)
    as (mp & sent & etags & tail & -> & Htail).
  { destruct Hrun as (mp & sent & etags & _ & [(_ & Htr')|Hfail]).
    - rewrite Htr in Htr'. apply app_inv_head in Htr'. subst t.
      eexists mp, sent, etags, [_; _]. split; [reflexivity|].
      constructor; [by intros ? [=]|].
      constructor; [by intros ? [= <-]|constructor].
    - destruct Hfail as (e' & c & rest & _ & _ & Htr').
      rewrite Htr in Htr'. apply app_inv_head in Htr'. subst t.
      eexists mp, sent, etags, [_; _]. split; [reflexivity|].
      constructor; [by intros ? [=]|].
      constructor; [by intros ? [= <-]|constructor]. }
  assert ((Bucket, Key, UploadId) =
          (bucket (task_attributes backup), key_of backup filename, mp)) as Heq.
  { apply elem_of_cons in Hin as [->|Hin]; [discriminate Hs|].
    apply elem_of_cons in Hin as [->|Hin]; [discriminate Hs|].
    apply elem_of_app in Hin as [Hin|Hin].
    - pose proof (part_events_sessions (bucket (task_attributes backup))
                    (key_of backup filename) mp 1 sent etags) as Hpe.
      rewrite Forall_forall in Hpe.
      destruct (Hpe _ Hin) as [[Hs'|Hr] _]; [congruence|].
      destruct e; discriminate.
    - rewrite Forall_forall in Htail. exact (Htail e Hin _ Hs). }
  injection Heq as -> -> ->. split; [done|]. split; [done|].
  apply list_elem_of_further, list_elem_of_here.
Qed.

(** X17: in every run of [put], however it ends, the bodies of the
    [upload_part] calls, put end to end in call order, are a prefix of the
    source stream, and the calls are numbered 1, 2, ... without a gap. *)
Theorem put_uploads_prefix backup filename read_fd (w : World St) t :
  trace (snd (BackupS3Service.put s3 backup filename read_fd w)) = trace w ++ t ->
  concat (call_Body <$> uploads t) `prefix_of` read_fd
  /\ call_PartNumber <$> uploads t = seqZ 1 (Z.of_nat (length (uploads t))).
Proof.
  intros Htr.
  pose proof (put_run s3 backup filename read_fd w) as Hrun. cbv zeta in Hrun.
  destruct Hrun as [(_ & Htr' & _)|[(e' & Htr' & _)|Hrun]].
  1,2: rewrite Htr in Htr'; apply app_inv_head in Htr'; subst t;
       split; [apply prefix_nil|reflexivity].
  destruct Hrun as (mp & sent & etags & Hlen & [(-> & Htr')|Hfail]).
  - rewrite Htr in Htr'. apply app_inv_head in Htr'. subst t. read_trace.
    pose proof (uploads_part_events_bodies (bucket (task_attributes backup))
                  (key_of backup filename) mp 1 _ _ Hlen) as Hb.
    pose proof (uploads_part_events_numbers (bucket (task_attributes backup))
                  (key_of backup filename) mp 1 _ _ Hlen) as Hn.
    rewrite Hb, chunks_concat. split; [done|].
    rewrite Hn. f_equal. f_equal.
    by rewrite <- Hb at 1; rewrite length_fmap.
  - destruct Hfail as (e' & c & rest & _ & Hch & Htr').
    rewrite Htr in Htr'. apply app_inv_head in Htr'. subst t. read_trace.
    pose proof (uploads_part_events_bodies (bucket (task_attributes backup))
                  (key_of backup filename) mp 1 _ _ Hlen) as Hb.
    pose proof (uploads_part_events_numbers (bucket (task_attributes backup))
                  (key_of backup filename) mp 1 _ _ Hlen) as Hn.
    assert (length (uploads (part_events (bucket (task_attributes backup))
              (key_of backup filename) mp 1 sent etags)) = length sent) as Hl.
    { by rewrite <- Hb at 2; rewrite length_fmap. }
    rewrite !fmap_app, Hb, Hn, length_app, Hl. cbn [fmap list_fmap length].
    split.
    + exists (concat rest). rewrite <- (chunks_concat read_fd), Hch.
      rewrite !concat_app. cbn [concat]. by rewrite app_nil_r, <- app_assoc.
    + replace (length sent + 1)%nat with (S (length sent)) by lia.
      by rewrite seqZ_S.
Qed.

(** X18: in no run does [put] fetch an object or write to a
    descriptor. *)
Theorem put_never_downloads backup filename read_fd (w : World St) t :
  trace (snd (BackupS3Service.put s3 backup filename read_fd w)) = trace w ++ t ->
  written t = [] /\ Forall (fun e => is_get_object e = false) t.
Proof.
  intros Htr.
  assert (Forall (fun e => is_get_object e = false /\ written_of e = []) t)
    as Hall.
  { pose proof (put_run s3 backup filename read_fd w) as Hrun. cbv zeta in Hrun.
    destruct Hrun as [(_ & Htr' & _)|[(e' & Htr' & _)|Hrun]].
    1,2: rewrite Htr in Htr'; apply app_inv_head in Htr'; subst t;
         by repeat constructor.
    assert (forall mp sent etags,
              Forall (fun e => is_get_object e = false /\ written_of e = [])
                (part_events (bucket (task_attributes backup))
                   (key_of backup filename) mp 1 sent etags)) as Hpe.
    { intros. eapply Forall_impl; [apply part_events_sessions|].
      by intros ? [_ ?]. }
    destruct Hrun as (mp & sent & etags & _ & [(_ & Htr')|Hfail]).
    - rewrite Htr in Htr'. apply app_inv_head in Htr'. subst t.
      repeat (apply Forall_app; split); [by repeat constructor|apply Hpe|].
      by repeat constructor.
    - destruct Hfail as (e' & c & rest & _ & _ & Htr').
      rewrite Htr in Htr'. apply app_inv_head in Htr'. subst t.
      repeat (apply Forall_app; split); [by repeat constructor|apply Hpe|].
      by repeat constructor. }
  split.
  - apply written_nil_Forall. eapply Forall_impl; [exact Hall|]. by intros ? [_ ?].
  - eapply Forall_impl; [exact Hall|]. by intros ? [? _].
Qed.
End PutPaths.

Lemma put_create_failure_witness :
  BackupS3Service.put Sample.denied (Sample.task 1 1) "f.bin" Sample.three_bytes
    (Sample.world 0) =
    (Raise (ClientError "AccessDenied"),
     log (EvCreateMultipartUpload "bkt" "dir/f.bin"
            (Raise (ClientError "AccessDenied")))
       (set_ext 1 (log (EvQuery "system.cloudcredentials" 1) (Sample.world 0)))).
Proof.
  exact (put_create_failure Sample.denied (Sample.task 1 1) "f.bin"
           Sample.three_bytes (Sample.world 0) Sample.amazon
           (ClientError "AccessDenied") 1 eq_refl eq_refl).
Defined.

Lemma put_returns_completion_witness :
  let run := BackupS3Service.put Sample.store (Sample.task 1 1) "f.bin"
               Sample.three_bytes (Sample.world ObjectStore.empty) in
  fst run = Ok tt
  /\ last (trace (snd run)) =
       Some (EvCompleteMultipartUpload "bkt" "dir/f.bin" "0"
               [{| ETag := "3"; PartNumber := 1 |}] (Ok tt))
  /\ call_Body <$> uploads (trace (snd run)) = chunks Sample.three_bytes.
Proof.
  cbv zeta.
  destruct (put_returns_completion Sample.store (Sample.task 1 1) "f.bin"
              Sample.three_bytes (Sample.world ObjectStore.empty)
              (trace (snd (BackupS3Service.put Sample.store (Sample.task 1 1)
                             "f.bin" Sample.three_bytes
                             (Sample.world ObjectStore.empty))))
              "bkt" "dir/f.bin" "0" [{| ETag := "3"; PartNumber := 1 |}] (Ok tt)
              eq_refl)
    as (Hres & Hlast & Hbodies & _).
  - vm_compute. do 5 apply list_elem_of_further. apply list_elem_of_here.
  - by repeat split.
Defined.

Lemma put_same_session_witness :
  EvCreateMultipartUpload "bkt" "dir/f.bin" (Ok "0")
  ∈ trace (snd (BackupS3Service.put Sample.store (Sample.task 1 1) "f.bin"
                  Sample.three_bytes (Sample.world ObjectStore.empty))).
Proof.
  destruct (put_same_session Sample.store (Sample.task 1 1) "f.bin"
              Sample.three_bytes (Sample.world ObjectStore.empty)
              (trace (snd (BackupS3Service.put Sample.store (Sample.task 1 1)
                             "f.bin" Sample.three_bytes
                             (Sample.world ObjectStore.empty))))
              (EvUploadPart "bkt" "dir/f.bin" 1 "0" CHUNK_SIZE Sample.three_bytes
                 (Ok "3"))
              "bkt" "dir/f.bin" "0" eq_refl)
    as (_ & _ & Hin).
  - vm_compute. do 3 apply list_elem_of_further. apply list_elem_of_here.
  - reflexivity.
  - exact Hin.
Defined.

Lemma put_uploads_prefix_witness :
  let t := trace (snd (BackupS3Service.put Sample.flaky (Sample.task 1 1) "f.bin"
                         Sample.three_bytes (Sample.world 0))) in
  concat (call_Body <$> uploads t) `prefix_of` Sample.three_bytes
  /\ call_PartNumber <$> uploads t = seqZ 1 (Z.of_nat (length (uploads t))).
Proof.
  exact (put_uploads_prefix Sample.flaky (Sample.task 1 1) "f.bin"
           Sample.three_bytes (Sample.world 0) _ eq_refl).
Defined.

Lemma put_never_downloads_witness :
  let t := trace (snd (BackupS3Service.put Sample.store (Sample.task 1 1) "f.bin"
                         Sample.three_bytes (Sample.world ObjectStore.empty))) in
  written t = [] /\ Forall (fun e => is_get_object e = false) t.
Proof.
  exact (put_never_downloads Sample.store (Sample.task 1 1) "f.bin"
           Sample.three_bytes (Sample.world ObjectStore.empty) _ eq_refl).
Defined.

(** ** Clients, buckets and keys *)

Section Listing.
Context {St : Type} (s3 : S3 St) (listing : S3Listing St).

(** X19: when no credential record has the id handed to [get_client],
    each of [put], [get], [get_buckets] and [get_bucket_location] raises
    [TypeError] right after the lookup: the object store is not called and
    the environment is left as it was. *)
Theorem no_credential_no_call backup filename read_fd id name (w : World St) :
  (system_cloudcredentials w !! task_id backup = None ->
   let failed :=
     (Raise (TypeError "'NoneType' object is not subscriptable"),
      log (EvQuery "system.cloudcredentials" (task_id backup)) w) in
   BackupS3Service.put s3 backup filename read_fd w = failed
   /\ BackupS3Service.get s3 backup filename w = failed)
  /\ (system_cloudcredentials w !! id = None ->
      BackupS3Service.get_buckets listing id w =
        (Raise (TypeError "'NoneType' object is not subscriptable"),
         log (EvQuery "system.cloudcredentials" id) w)
      /\ BackupS3Service.get_bucket_location listing id name w =
           (Raise (TypeError "'NoneType' object is not subscriptable"),
            log (EvQuery "system.cloudcredentials" id) w)).
Proof.
  split; intros Hc; cbv zeta; split.
  - by apply put_without_credential.
  - rewrite get_run. cbv zeta. by rewrite Hc.
  - unfold BackupS3Service.get_buckets, bind. by rewrite get_client_run, Hc.
  - unfold BackupS3Service.get_bucket_location, bind.
    by rewrite get_client_run, Hc.
Qed.

Lemma get_buckets_loop_app Buckets buckets :
  BackupS3Service.get_buckets_loop Buckets buckets =
    buckets ++
    ((fun bucket => {| BackupS3Service.name := Name bucket;
                       BackupS3Service.creation_date := CreationDate bucket |})
       <$> Buckets).
Proof.
  revert buckets. induction Buckets as [|bucket Buckets IH]; intros buckets.
  - simpl. by rewrite app_nil_r.
  - cbn [BackupS3Service.get_buckets_loop]. rewrite IH, fmap_cons.
    by rewrite <- app_assoc.
Qed.

(** X20: [get_buckets] returns one record per bucket of the listing, in
    the order of the listing, each with the name and the creation date of
    its bucket; when the listing raises, it raises the same exception; the
    only lookup is that of the credential with the id given. *)
Theorem get_buckets_lists id (w : World St) credential r s :
  system_cloudcredentials w !! id = Some credential ->
  list_buckets listing (client_of credential) (ext w) = (r, s) ->
  let run := BackupS3Service.get_buckets listing id w in
  trace (snd run) = trace w ++ [EvQuery "system.cloudcredentials" id]
  /\ ext (snd run) = s
  /\ match r with
     | Ok Buckets =>
         exists buckets,
           fst run = Ok buckets
           /\ length buckets = length Buckets
           /\ BackupS3Service.name <$> buckets = Name <$> Buckets
           /\ BackupS3Service.creation_date <$> buckets = CreationDate <$> Buckets
     | Raise e => fst run = Raise e
     end.
Proof.
  intros Hc Hl. cbv zeta.
  unfold BackupS3Service.get_buckets, bind. rewrite get_client_run, Hc.
  fold (client_of credential).
  unfold BackupS3Service.call_listing. cbn [ext log]. rewrite Hl.
  destruct r as [Buckets|e]; cbn [fst snd ret ext set_ext trace log];
    [|done].
  split; [done|]. split; [done|].
  eexists. split; [reflexivity|].
  rewrite get_buckets_loop_app. cbn [app].
  rewrite length_fmap, <- !list_fmap_compose. by repeat split.
Qed.

(** [get_bucket_location] returns the location constraint the client
    reports for the bucket, [None] included, and raises what the client
    raises. *)
Lemma get_bucket_location_reports id name (w : World St) credential r s :
  system_cloudcredentials w !! id = Some credential ->
  bucket_location listing (client_of credential) name (ext w) = (r, s) ->
  BackupS3Service.get_bucket_location listing id name w =
    (r, set_ext s (log (EvQuery "system.cloudcredentials" id) w)).
Proof.
  intros Hc Hl. unfold BackupS3Service.get_bucket_location, bind.
  rewrite get_client_run, Hc. fold (client_of credential).
  unfold BackupS3Service.call_listing. cbn [ext log]. by rewrite Hl.
Qed.
End Listing.

(** The key is the file name alone when the task has no folder or an
    empty one, and also when the file name starts with a slash, whatever
    the folder; otherwise it is the folder, one slash unless the folder
    ends in one, and the file name. *)
Lemma key_of_cases backup filename :
  let folder := or_empty (folder (task_attributes backup)) in
  (folder = EmptyString -> key_of backup filename = filename)
  /\ (startswith_sep filename = true -> key_of backup filename = filename)
  /\ (startswith_sep filename = false -> folder <> EmptyString ->
      key_of backup filename =
        if endswith_sep folder then folder +:+ filename
        else folder +:+ "/" +:+ filename).
Proof.
  cbv zeta. unfold key_of, os_path_join. repeat split.
  - intros ->. by destruct (startswith_sep filename).
  - by intros ->.
  - intros -> Hne.
    destruct (String.eqb_spec (or_empty (folder (task_attributes backup)))
                EmptyString); [done|reflexivity].
Qed.

Lemma part_events_keys Bucket Key UploadId idx cs etags :
  Forall (fun e => forall K, key_in e = Some K -> K = Key)
         (part_events Bucket Key UploadId idx cs etags).
Proof.
  revert idx etags. induction cs as [|c cs IH]; intros idx [|etag etags];
    try constructor; [by intros ? [=]|].
  constructor; [by intros ? [= <-]|apply IH].
Qed.

(** X21: every object-store call of [put] and of [get] addresses the key
    computed from the folder of the task and the file name; so when the
    file name starts with a slash, or the task has no folder or an empty
    one, every call addresses the file name itself: a leading slash takes
    the object out of the folder of the task. *)
Theorem calls_address_key {St} (s3 : S3 St) backup filename read_fd
    (w : World St) t e K :
  trace (snd (BackupS3Service.put s3 backup filename read_fd w)) = trace w ++ t
  \/ trace (snd (BackupS3Service.get s3 backup filename w)) = trace w ++ t ->
  e ∈ t ->
  key_in e = Some K ->
  K = key_of backup filename
  /\ (startswith_sep filename = true
      \/ or_empty (folder (task_attributes backup)) = EmptyString ->
      K = filename).
Proof.
  intros Htr Hin HK.
  assert (Forall (fun e => forall K, key_in e = Some K ->
                             K = key_of backup filename) t) as Ht.
  { destruct Htr as [Htr|Htr].
    - pose proof (put_run s3 backup filename read_fd w) as Hrun.
      cbv zeta in Hrun.
      destruct Hrun as [(_ & Htr' & _)|[(e' & Htr' & _)|Hrun]].
      + rewrite Htr in Htr'. apply app_inv_head in Htr'. subst t.
        constructor; [by intros ? [=]|constructor].
      + rewrite Htr in Htr'. apply app_inv_head in Htr'. subst t.
        constructor; [by intros ? [=]|].
        constructor; [by intros ? [= <-]|constructor].
      + destruct Hrun as (mp & sent & etags & _ & [(_ & Htr')|Hfail]).
        * rewrite Htr in Htr'. apply app_inv_head in Htr'. subst t.
          repeat (apply Forall_app; split); [|apply part_events_keys|].
          -- constructor; [by intros ? [=]|].
             constructor; [by intros ? [= <-]|constructor].
          -- constructor; [by intros ? [=]|].
             constructor; [by intros ? [= <-]|constructor].
        * destruct Hfail as (e' & c & rest & _ & _ & Htr').
          rewrite Htr in Htr'. apply app_inv_head in Htr'. subst t.
          repeat (apply Forall_app; split); [|apply part_events_keys|].
          -- constructor; [by intros ? [=]|].
             constructor; [by intros ? [= <-]|constructor].
          -- constructor; [by intros ? [=]|].
             constructor; [by intros ? [= <-]|constructor].
    - revert Htr. rewrite get_run. cbv zeta.
      destruct (system_cloudcredentials w !! task_id backup) as [credential|].
      2:{ cbn [snd trace log]. intros Htr. apply app_inv_head in Htr. subst t.
          constructor; [by intros ? [=]|constructor]. }
      destruct (get_object s3 _ _ _ (ext w)) as [[body|e'] s].
      2:{ cbn [snd trace log set_ext]. rewrite <- app_assoc. intros Htr.
          apply app_inv_head in Htr. subst t.
          constructor; [by intros ? [=]|].
          constructor; [by intros ? [= <-]|constructor]. }
      match goal with
      | |- context [BackupS3Service.get_loop body [] ?w0] =>
          destruct (get_loop_run body [] w0)
            as (pending' & w' & t' & Hrun & Htr' & Hall & _)
      end.
      rewrite Hrun. cbn [snd]. rewrite Htr'. cbn [trace log set_ext].
      rewrite <- !app_assoc. intros Htr. apply app_inv_head in Htr. subst t.
      cbn [app].
      constructor; [by intros ? [=]|].
      constructor; [by intros ? [= <-]|].
      eapply Forall_impl; [exact Hall|]. by intros ? [d ->] ? [=]. }
  rewrite Forall_forall in Ht. rewrite (Ht e Hin K HK).
  split; [done|].
  destruct (key_of_cases backup filename) as (Hempty & Habs & _).
  intros [H|H]; [by apply Habs|by apply Hempty].
Qed.

(** ** The further theorems at sample inputs *)

Lemma sync_deletes_tmpfile_witness :
  exists t,
    trace (snd (BackupS3Service.sync Sample.no_rclone (Sample.task 1 1)
                  Sample.amazon (Sample.world 0))) =
      EvTmpCreate "/tmp/tmpq1w2e3" BackupS3Service.mode_0o600 :: t
    /\ last t = Some (EvTmpDelete "/tmp/tmpq1w2e3")
    /\ fs_after (EvTmpCreate "/tmp/tmpq1w2e3" BackupS3Service.mode_0o600 :: t) = ∅.
Proof.
  exact (sync_deletes_tmpfile Sample.no_rclone (Sample.task 1 1) Sample.amazon
           (Sample.world 0) "/tmp/tmpq1w2e3" 0 eq_refl).
Defined.

Lemma sync_missing_key_witness :
  BackupS3Service.sync Sample.host (Sample.task 1 1) Sample.keyless
    (Sample.world 0) =
    (Raise (KeyError "secret_key"),
     log (EvTmpDelete "/tmp/tmpq1w2e3")
       (log (EvChmod "/tmp/tmpq1w2e3" BackupS3Service.mode_0o600)
          (log (EvTmpCreate "/tmp/tmpq1w2e3" BackupS3Service.mode_0o600)
             (set_ext 0 (Sample.world 0))))).
Proof.
  apply (sync_missing_key Sample.host (Sample.task 1 1) Sample.keyless
           (Sample.world 0) "/tmp/tmpq1w2e3" 0 "secret_key" eq_refl).
  right. split; [by eexists|]. by split.
Defined.

Lemma sync_popen_failure_witness :
  fst (BackupS3Service.sync Sample.no_rclone (Sample.task 1 1) Sample.amazon
         (Sample.world 0)) = Raise (OSError "No such file or directory").
Proof.
  exact (proj1 (sync_popen_failure Sample.no_rclone (Sample.task 1 1)
                  Sample.amazon (Sample.world 0) "/tmp/tmpq1w2e3" 0
                  "AKIDEXAMPLE" "s3cr3t" (OSError "No such file or directory") 0
                  eq_refl eq_refl eq_refl eq_refl)).
Defined.

Lemma sync_ignores_folder_witness :
  BackupS3Service.sync Sample.host (Sample.task 1 1) Sample.amazon (Sample.world 0) =
  BackupS3Service.sync Sample.host
    {| task_id := 8; task_path := "/mnt/tank/data";
       task_credential := {| ref_id := 1 |};
       task_attributes := {| bucket := "bkt"; folder := None;
                             region := Some EmptyString |} |}
    Sample.amazon (Sample.world 0)
  /\ exists t,
       trace (snd (BackupS3Service.sync Sample.host (Sample.task 1 1)
                     Sample.amazon (Sample.world 0))) =
         trace (Sample.world 0) ++ t
       /\ forall args r,
            EvPopen args r ∈ t ->
            exists name,
              EvTmpCreate name BackupS3Service.mode_0o600 ∈ t
              /\ args =
                   ["/usr/local/bin/rclone"; "--config"; name; "--stats"; "1s";
                    "sync"; "/mnt/tank/data"; "remote:bkt"].
Proof.
  apply (sync_ignores_folder Sample.host (Sample.task 1 1)); reflexivity.
Defined.

Lemma sync_returns_after_exit_zero_witness :
  BackupService.sync Sample.host 1 (Sample.world 0) =
    (Ok true, snd (BackupService.sync Sample.host 1 (Sample.world 0)))
  /\ exists stderr,
       EvCommunicate stderr 0
       ∈ trace (snd (BackupService.sync Sample.host 1 (Sample.world 0))).
Proof.
  assert (BackupService.sync Sample.host 1 (Sample.world 0) =
          (Ok true, snd (BackupService.sync Sample.host 1 (Sample.world 0))))
    as Hrun by (vm_compute; reflexivity).
  split; [exact Hrun|].
  destruct (sync_returns_after_exit_zero Sample.host (Sample.world 0) _ 1
              true Hrun)
    as (_ & backup & credential & name & ak & sk & stderr & _ & _ & _ & Htr).
  exists stderr. rewrite Htr. apply elem_of_app. right.
  do 8 apply list_elem_of_further. apply list_elem_of_here.
Defined.

Lemma no_credential_no_call_witness :
  BackupS3Service.get Sample.flaky (Sample.task 5 1) "f.bin" (Sample.world 0) =
    (Raise (TypeError "'NoneType' object is not subscriptable"),
     log (EvQuery "system.cloudcredentials" 5) (Sample.world 0))
  /\ BackupS3Service.get_buckets Sample.listing 5 (Sample.world 0) =
       (Raise (TypeError "'NoneType' object is not subscriptable"),
        log (EvQuery "system.cloudcredentials" 5) (Sample.world 0)).
Proof.
  split.
  - exact (proj2 (proj1 (no_credential_no_call Sample.flaky Sample.listing
                           (Sample.task 5 1) "f.bin" [] 5 "logs"
                           (Sample.world 0)) eq_refl)).
  - exact (proj1 (proj2 (no_credential_no_call Sample.flaky Sample.listing
                           (Sample.task 5 1) "f.bin" [] 5 "logs"
                           (Sample.world 0)) eq_refl)).
Defined.

Lemma get_buckets_lists_witness :
  fst (BackupS3Service.get_buckets Sample.listing 1 (Sample.world 0)) =
    Ok [ {| BackupS3Service.name := "logs";
            BackupS3Service.creation_date := 1480550400 |};
         {| BackupS3Service.name := "media";
            BackupS3Service.creation_date := 1480636800 |} ]
  /\ ext (snd (BackupS3Service.get_buckets Sample.listing 1 (Sample.world 0))) = 1.
Proof.
  destruct (get_buckets_lists Sample.listing 1 (Sample.world 0) Sample.amazon
              _ _ eq_refl eq_refl) as (_ & Hext & _).
  split; [reflexivity|exact Hext].
Defined.

Lemma calls_address_key_witness :
  key_of (Sample.task 1 1) "/etc/f.bin" = "/etc/f.bin".
Proof.
  refine (proj2 (calls_address_key Sample.store (Sample.task 1 1) "/etc/f.bin"
                   Sample.three_bytes (Sample.world ObjectStore.empty)
                   (trace (snd (BackupS3Service.put Sample.store (Sample.task 1 1)
                                  "/etc/f.bin" Sample.three_bytes
                                  (Sample.world ObjectStore.empty))))
                   (EvCreateMultipartUpload "bkt" "/etc/f.bin" (Ok "0"))
                   (key_of (Sample.task 1 1) "/etc/f.bin") _ _ _) _).
  - left. reflexivity.
  - vm_compute. apply list_elem_of_further, list_elem_of_here.
  - reflexivity.
  - left. reflexivity.
Defined.
